(** * OpenCap reconstruction pipeline: a shallow embedding of [main.py]

    The function [main] of [main.py] drives one trial through camera
    calibration, pose detection, synchronisation, triangulation, marker
    augmentation and the OpenSim tools.  It is embedded here region by
    region (the [# %%] regions of the source), in a small monad that
    threads the on-disk store, raises Python exceptions and logs every
    call to an external collaborator.

    Conventions of the embedding:
    - the collaborators imported from [utils], [utilsChecker],
      [utilsDetector], [utilsAugmenter] and [utilsOpenSim] are fields of an
      environment record [Env]; each is a function from its arguments to a
      result or a raised exception;
    - a local variable that some path leaves unassigned is an [option];
      reading it while unassigned raises [UnboundLocalError], as Python does;
    - Python floats are rationals ([Q]); [int] on a float truncates toward
      zero;
    - paths follow the posix deployment ([os.name == 'posix']);
    - [print] calls are not logged. *)

From Stdlib Require Import ZArith QArith Ascii String.
From stdpp Require Import gmap strings list.

Local Open Scope string_scope.
Local Open Scope list_scope.

(** ** Python values and exceptions *)

Inductive ExcKind :=
  | KException | KValueError | KKeyError | KUnboundLocalError
  | KFileNotFoundError | KOther.

(** An exception object: its class and its [args] tuple. *)
Record PyExc := mkExc { exc_kind : ExcKind; exc_args : list string }.

Inductive Res (A : Type) :=
  | Ok (a : A)
  | Raise (e : PyExc).
Arguments Ok {A} a.
Arguments Raise {A} e.

(** Arrays and other payloads that [main] only passes along. *)
Inductive PyObj := Obj (id : N).

(** Camera parameters are a dict that [main] never inspects. *)
Definition CamParams := PyObj.

(** [keypoints3D]: only its shape is inspected. *)
Record Keypoints3D := mkK3D { k3d_shape : Z * Z * Z; k3d_data : PyObj }.

Definition shape2 (k : Keypoints3D) : Z := snd (k3d_shape k).

Inductive PyVal := VStr (s : string) | VInt (z : Z) | VFloat (q : Q).

(** Insertion-ordered dictionaries. *)
Definition Dict (V : Type) := list (string * V).

Fixpoint dict_get {V} (d : Dict V) (k : string) : option V :=
  match d with
  | [] => None
  | (k', v) :: d' => if String.eqb k' k then Some v else dict_get d' k
  end.

Fixpoint dict_set {V} (d : Dict V) (k : string) (v : V) : Dict V :=
  match d with
  | [] => [(k, v)]
  | (k', v') :: d' =>
      if String.eqb k' k then (k, v) :: d' else (k', v') :: dict_set d' k v
  end.

Definition dict_values {V} (d : Dict V) : list V := map snd d.

(** ** Strings and posix paths *)

Definition starts_with_slash (s : string) : bool :=
  match s with
  | String c _ => Ascii.eqb c "/"%char
  | EmptyString => false
  end.

Fixpoint ends_with_slash (s : string) : bool :=
  match s with
  | EmptyString => false
  | String c EmptyString => Ascii.eqb c "/"%char
  | String _ s' => ends_with_slash s'
  end.

(** [os.path.join a b] on posix. *)
Definition path_join (a b : string) : string :=
  if starts_with_slash b then b
  else if (String.eqb a "" || ends_with_slash a)%bool then a +:+ b
  else a +:+ "/" +:+ b.

Definition path_join3 (a b c : string) : string := path_join (path_join a b) c.
Definition path_join4 (a b c d : string) : string :=
  path_join (path_join3 a b c) d.

(** [s.split('/')[-1]] *)
Fixpoint last_component_aux (s acc : string) : string :=
  match s with
  | EmptyString => acc
  | String c s' =>
      if Ascii.eqb c "/"%char then last_component_aux s' ""
      else last_component_aux s' (acc +:+ String c "")
  end.

Definition last_component (s : string) : string := last_component_aux s "".

(** [s[:-5]] *)
Definition drop_last5 (s : string) : string :=
  String.substring 0 (String.length s - 5) s.

(** [sub in s] *)
Definition contains (sub s : string) : bool :=
  match String.index 0 sub s with Some _ => true | None => false end.

(** [int(x)] on a float. *)
Definition py_int (x : Q) : Z := Z.quot (Qnum x) (Zpos (Qden x)).

(** ** Session metadata ([sessionMetadata.yaml]) *)

Record CheckerBoard := mkCheckerBoard {
  black2BlackCornersWidth_n : Z;
  black2BlackCornersHeight_n : Z;
  squareSideLength_mm : Q;
  placement : string }.

Record SessionMetadata := mkSessionMetadata {
  augmentermodel : option string;
  openSimModel : string;
  checkerBoard : CheckerBoard;
  iphoneModel : Dict string;
  markerAugmenterModel : string;
  mass_kg : Q;
  height_m : Q }.

Record CheckerBoardParams := mkCheckerBoardParams {
  dimensions : Z * Z;
  squareSize : Q }.

(** ** Arguments of [main] *)

Record Args := mkArgs {
  sessionName : string;
  trialName : string;
  trial_id : string;
  camerasToUse : list string;
  intrinsicsFinalFolder : string;
  isDocker : bool;
  extrinsicsTrial : bool;
  alternateExtrinsics : option (list string);
  calibrationOptions : option PyObj;
  markerDataFolderNameSuffix : option string;
  imageUpsampleFactor : Z;
  poseDetector : string;
  resolutionPoseDetection : string;
  scaleModel : bool;
  bbox_thr : Q;
  augmenter_model : string;
  genericFolderNames : bool;
  offset : bool;
  benchmark : bool;
  dataDir : option string;
  overwriteAugmenterModel : bool }.

(** ** Arguments and results of the external collaborators *)

Record SyncOut := mkSyncOut {
  keypoints2D : PyObj;
  confidence : PyObj;
  keypointNames : list string;
  frameRate : Q;
  nansInOut : PyObj;
  startEndFrames : PyObj;
  cameras2Use : list string }.

Record CalcArgs := mkCalcArgs {
  ca_path : string;
  ca_CamParams : option CamParams;
  ca_CheckerBoardParams : CheckerBoardParams;
  ca_visualize : bool;
  ca_imageUpsampleFactor : Z;
  ca_useSecondExtrinsicsSolution : bool }.

Record PoseArgs := mkPoseArgs {
  pa_cameraDirectories : Dict string;
  pa_trialRelativePath : string;
  pa_poseDetectorDirectory : string;
  pa_trialName : string;
  pa_CamParamDict : Dict (option CamParams);
  pa_resolutionPoseDetection : string;
  pa_generateVideo : bool;
  pa_cams2Use : list string;
  pa_poseDetector : string;
  pa_bbox_thr : Q }.

Record SyncArgs := mkSyncArgs {
  sa_cameraDirectories : Dict string;
  sa_trialRelativePath : string;
  sa_poseDetectorDirectory : string;
  sa_undistortPoints : bool;
  sa_CamParamDict : Dict (option CamParams);
  sa_filtFreqs : Dict Z;
  sa_confidenceThreshold : Q;
  sa_imageBasedTracker : bool;
  sa_cams2Use : list string;
  sa_poseDetector : string;
  sa_trialName : string;
  sa_resolutionPoseDetection : string }.

Record TriArgs := mkTriArgs {
  ta_CamParamDict : Dict (option CamParams);
  ta_keypoints2D : PyObj;
  ta_ignoreMissingMarkers : bool;
  ta_cams2Use : list string;
  ta_confidenceDict : PyObj;
  ta_spline3dZeros : bool;
  ta_splineMaxFrames : Z;
  ta_nansInOut : PyObj;
  ta_CameraDirectories : Dict string;
  ta_trialName : string;
  ta_startEndFrames : PyObj;
  ta_trialID : string;
  ta_outputMediaFolder : string }.

Definition RotationAngles := Dict (list Z).

Record TRCArgs := mkTRCArgs {
  trc_keypoints3D : Keypoints3D;
  trc_path : string;
  trc_keypointNames : list string;
  trc_frameRate : Q;
  trc_rotationAngles : RotationAngles }.

Record AugArgs := mkAugArgs {
  au_pathInput : string;
  au_mass : Q;
  au_height : Q;
  au_pathOutput : string;
  au_augmenterDir : string;
  au_augmenterModelName : string;
  au_augmenter_model : string;
  au_offset : bool }.

Record ScaleArgs := mkScaleArgs {
  sc_setupFile : string;
  sc_genericModel : string;
  sc_mass : Q;
  sc_pathTRC : string;
  sc_timeRange : Q * Q;
  sc_outputDir : string;
  sc_subjectHeight : Q;
  sc_suffix_model : string }.

(** ** The log of external calls *)

Inductive Event :=
  | EvMakedirs (path : string)
  | EvDumpSettings (path : string) (settings : Dict PyVal)
  | EvLoadCameraParameters (cam path : string)
  | EvRotateIntrinsics (cam : string) (c : option CamParams) (path : string)
  | EvCalcExtrinsics (cam : string) (a : CalcArgs)
  | EvSaveCameraParameters (path : string) (c : option CamParams)
  | EvIsCheckerboardUpsideDown (d : Dict (option CamParams))
  | EvRunPoseDetector (a : PoseArgs)
  | EvSynchronizeVideos (a : SyncArgs)
  | EvAutoSelectExtrinsicSolution
      (sessionDir : string) (k2d conf : PyObj) (options : PyObj)
  | EvTriangulate (a : TriArgs)
  | EvWriteTRC (a : TRCArgs)
  | EvAugmentTRC (a : AugArgs)
  | EvGetScaleTimeRange (path : string) (attempt : nat)
  | EvRunScaleTool (a : ScaleArgs)
  | EvPopNeutralPoseImages
      (dirs : Dict string) (cams : list string) (t : Q) (dir trial : string)
  | EvRunIKTool (setup model trc outDir : string)
  | EvGenerateVisualizerJson (model mot json : string) (vertical_offset : Q).

(** ** The on-disk store *)

Inductive FileData :=
  | FPickle (c : option CamParams)
  | FDir
  | FYaml (settings : Dict PyVal)
  | FOther.

(** ** The environment: everything [main] imports *)

Record Env := mkEnv {
  baseDir : string;
  getDataDirectory : bool -> string;
  getOpenPoseDirectory : bool -> string;
  getMMposeDirectory : bool -> string;
  str_float : Q -> string;
  format_exc : PyExc -> string;
  glob_cams : string -> list string;
  importMetadata : string -> Res SessionMetadata;
  getVideoExtension : string -> Res string;
  rotateIntrinsics : option CamParams -> string -> Res (option CamParams);
  calcExtrinsicsFromVideo : CalcArgs -> Res (option CamParams);
  isCheckerboardUpsideDown : Dict (option CamParams) -> Res bool;
  runPoseDetector : PoseArgs -> Res string;
  synchronizeVideos : SyncArgs -> Res SyncOut;
  autoSelectExtrinsicSolution :
    string -> PyObj -> PyObj -> PyObj -> Res (Dict (option CamParams));
  triangulateMultiviewVideo : TriArgs -> Res (Keypoints3D * PyObj);
  writeTRCfrom3DKeypoints : TRCArgs -> Res unit;
  augmentTRC : AugArgs -> Res Q;
  getScaleTimeRange : string -> nat -> Res (Q * Q);
  runScaleTool : ScaleArgs -> Res string;
  popNeutralPoseImages :
    Dict string -> list string -> Q -> string -> string -> Res unit;
  runIKTool : string -> string -> string -> string -> Res string;
  generateVisualizerJson : string -> string -> string -> Q -> Res unit }.

(** ** The pipeline monad: store passing, exceptions, call log *)

Definition M (A : Type) : Type :=
  gmap string FileData -> Res A * gmap string FileData * list Event.

Definition ret {A} (a : A) : M A := fun fs => (Ok a, fs, []).

Definition raise {A} (e : PyExc) : M A := fun fs => (Raise e, fs, []).

Definition bind {A B} (m : M A) (f : A -> M B) : M B :=
  fun fs =>
    match m fs with
    | (Ok a, fs1, ev1) =>
        match f a fs1 with
        | (r, fs2, ev2) => (r, fs2, ev1 ++ ev2)
        end
    | (Raise e, fs1, ev1) => (Raise e, fs1, ev1)
    end.

#[global] Instance M_ret : MRet M := @ret.
#[global] Instance M_bind : MBind M := fun A B f m => bind m f.

(** A call to a collaborator: it is logged, then returns or raises. *)
Definition extern {A} (ev : Event) (r : Res A) : M A :=
  fun fs => (r, fs, [ev]).

(** A query of the environment that is not logged. *)
Definition query {A} (r : Res A) : M A := fun fs => (r, fs, []).

(** Reading a local variable. *)
Definition use {A} (name : string) (v : option A) : M A :=
  match v with
  | Some a => ret a
  | None =>
      raise (mkExc KUnboundLocalError
               ["local variable '" +:+ name +:+
                "' referenced before assignment"])
  end.

(** [d[k]] *)
Definition subscript {V} (d : Dict V) (k : string) : M V :=
  match dict_get d k with
  | Some v => ret v
  | None => raise (mkExc KKeyError [k])
  end.

(** [os.path.exists] *)
Definition path_exists (p : string) : M bool :=
  fun fs => (Ok (bool_decide (is_Some (fs !! p))), fs, []).

(** [os.makedirs(p, exist_ok=True)] *)
Definition makedirs (p : string) : M unit :=
  fun fs =>
    (Ok tt, match fs !! p with Some _ => fs | None => <[p := FDir]> fs end,
     [EvMakedirs p]).

(** [with open(p, 'w') as file: yaml.dump(settings, file)] *)
Definition dump_settings (p : string) (settings : Dict PyVal) : M unit :=
  fun fs => (Ok tt, <[p := FYaml settings]> fs, [EvDumpSettings p settings]).

(** Modelled from the spec: [loadCameraParameters] of [utils] is not among
    the sources; the spec says a cache entry, when it exists, "is returned
    unchanged".  A missing or foreign file raises as [open] does. *)
Definition loadCameraParameters (cam p : string) : M (option CamParams) :=
  fun fs =>
    (match fs !! p with
     | Some (FPickle c) => Ok c
     | _ => Raise (mkExc KFileNotFoundError ["2"; "No such file or directory"])
     end, fs, [EvLoadCameraParameters cam p]).

(** Modelled from the spec: [saveCameraParameters] of [utilsChecker] is not
    among the sources; the spec says computed extrinsics "are persisted
    keyed by camera directory". *)
Definition saveCameraParameters (p : string) (c : option CamParams) : M unit :=
  fun fs => (Ok tt, <[p := FPickle c]> fs, [EvSaveCameraParameters p c]).

Section Handlers.
Context (env : Env).

(** The handler that follows every stage:
<<
    except Exception as e:
        if len(e.args) == 2: # specific exception
            raise Exception(e.args[0], e.args[1])
        elif len(e.args) == 1: # generic exception
            exception = "..."
            raise Exception(exception, traceback.format_exc())
>>
    An exception whose [args] has any other length leaves the handler
    without a raise: the result is [None] and execution goes on. *)
Definition handle {A} (generic : string) (r : Res A) : Res (option A) :=
  match r with
  | Ok a => Ok (Some a)
  | Raise e =>
      match exc_args e with
      | [a0; a1] => Raise (mkExc KException [a0; a1])
      | [_] => Raise (mkExc KException [generic; format_exc env e])
      | _ => Ok None
      end
  end.

Definition try_stage {A} (generic : string) (m : M A) : M (option A) :=
  fun fs => match m fs with (r, fs1, ev) => (handle generic r, fs1, ev) end.
End Handlers.

(** [for x in xs: acc = body(x, acc)] *)
Fixpoint for_each {X S} (xs : list X) (body : X -> S -> M S) (acc : S) : M S :=
  match xs with
  | [] => ret acc
  | x :: xs' => acc' ← body x acc; for_each xs' body acc'
  end.

(** ** The regions of [main] *)

Section Pipeline.
Context (env : Env) (args : Args).

(** *** High-level settings *)

Definition runCameraCalibration : bool := true.
Definition runPoseDetection : bool :=
  if extrinsicsTrial args then false else true.
Definition runSynchronization : bool :=
  if extrinsicsTrial args then false else true.
Definition runTriangulation : bool :=
  if extrinsicsTrial args then false else true.
Definition runMarkerAugmentation : bool :=
  if extrinsicsTrial args then false else true.
Definition runOpenSimPipeline : bool :=
  if extrinsicsTrial args then false else true.

(** Lowpass filter frequency of 2D keypoints for gait and everything
    else. *)
Definition filtFreqs : Dict Z := [("gait", 12%Z); ("default", 500%Z)].

Definition generateVideo : bool := true.

(** [poseDetector] after the hrnet/openpose renaming. *)
Definition poseDetectorName : string :=
  if String.eqb (poseDetector args) "hrnet" then "mmpose"
  else if String.eqb (poseDetector args) "openpose" then "OpenPose"
  else poseDetector args.

Definition outputMediaFolder : option string :=
  if String.eqb poseDetectorName "mmpose" then
    Some ("OutputMedia_mmpose" +:+ str_float env (bbox_thr args))
  else if String.eqb poseDetectorName "OpenPose" then
    Some ("OutputMedia_" +:+ resolutionPoseDetection args)
  else None.

(** *** Paths and metadata *)

Definition dataDirectory : string :=
  match dataDir args with
  | None => getDataDirectory env (isDocker args)
  | Some d => d
  end.

Definition sessionDir : string :=
  path_join3 dataDirectory "Data" (sessionName args).

Definition augmenterModel (md : SessionMetadata) : string :=
  match augmentermodel md with
  | Some m => if overwriteAugmenterModel args then augmenter_model args else m
  | None => augmenter_model args
  end.

Definition poseDetectorDirectory : option string :=
  if String.eqb poseDetectorName "OpenPose" then
    Some (getOpenPoseDirectory env (isDocker args))
  else if String.eqb poseDetectorName "mmpose" then
    Some (getMMposeDirectory env (isDocker args))
  else None.

(** *** Marker folders *)

(** [suff_pd] is assigned only on the non-generic branch, and there only
    for the two known detectors. *)
Definition suff_pd : option string :=
  if genericFolderNames args then None
  else if String.eqb poseDetectorName "mmpose" then
    Some ("_" +:+ str_float env (bbox_thr args))
  else if String.eqb poseDetectorName "OpenPose" then
    Some ("_" +:+ resolutionPoseDetection args)
  else None.

Definition markerDataFolderName : M string :=
  if genericFolderNames args then ret "MarkerData"
  else
    s ← use "suff_pd" suff_pd;
    let name := path_join "MarkerData" (poseDetectorName +:+ s) in
    ret (match markerDataFolderNameSuffix args with
         | Some suffix => path_join name suffix
         | None => name
         end).

Definition preAugmentationDir (mdfn : string) : string :=
  path_join3 sessionDir mdfn "PreAugmentation".

Definition postAugmentationDir (md : SessionMetadata) (mdfn : string)
  : string :=
  if genericFolderNames args then
    path_join3 sessionDir mdfn "PostAugmentation"
  else
    path_join3 sessionDir mdfn ("PostAugmentation_" +:+ augmenterModel md).

(** *** Settings *)

Definition pathSettings (md : SessionMetadata) (mdfn : string) : string :=
  path_join (postAugmentationDir md mdfn)
    ("Settings_" +:+ trial_id args +:+ ".yaml").

Definition settings0 (md : SessionMetadata) : Dict PyVal :=
  let s := [("poseDetector", VStr poseDetectorName);
            ("augmenter_model", VStr (augmenterModel md));
            ("imageUpsampleFactor", VInt (imageUpsampleFactor args));
            ("openSimModel", VStr (openSimModel md))] in
  if String.eqb poseDetectorName "OpenPose" then
    dict_set s "resolutionPoseDetection" (VStr (resolutionPoseDetection args))
  else if String.eqb poseDetectorName "mmpose" then
    dict_set s "bbox_thr" (VFloat (bbox_thr args))
  else s.

(** Everything up to and including the first settings dump.  Returns the
    metadata and [markerDataFolderName]. *)
Definition setup : M (SessionMetadata * string) :=
  md ← query (importMetadata env (path_join sessionDir "sessionMetadata.yaml"));
  mdfn ← markerDataFolderName;
  makedirs (preAugmentationDir mdfn);;
  makedirs (postAugmentationDir md mdfn);;
  (if extrinsicsTrial args then ret tt
   else dump_settings (pathSettings md mdfn) (settings0 md));;
  ret (md, mdfn).

(** *** Camera calibration *)

Definition cacheFile : string := "cameraIntrinsicsExtrinsics.pickle".

Definition checkerBoardParams (md : SessionMetadata) : CheckerBoardParams :=
  {| dimensions := (black2BlackCornersWidth_n (checkerBoard md),
                    black2BlackCornersHeight_n (checkerBoard md));
     squareSize := squareSideLength_mm (checkerBoard md) |}.

(** The [glob] loop that fills [cameraDirectories] and [cameraModels]. *)
Definition collectCameras (md : SessionMetadata)
  : M (Dict string * Dict string) :=
  for_each
    (glob_cams env (path_join3 sessionDir "Videos" "Cam*"))
    (fun pathCam '(cameraDirectories, cameraModels) =>
       let camName := last_component pathCam in
       let cameraDirectories :=
         dict_set cameraDirectories camName
           (path_join3 sessionDir "Videos" pathCam) in
       model ← subscript (iphoneModel md) camName;
       ret (cameraDirectories, dict_set cameraModels camName model))
    ([], []).

Definition intrinsicsMissing : string :=
  "Intrinsics don't exist for your camera model. OpenCap supports all iOS devices released in 2018 or later: https://www.opencap.ai/get-started.".

Definition calibrationFailed : string :=
  "Camera calibration failed. Verify your setup and try again. Visit https://www.opencap.ai/best-pratices to learn more about camera calibration and https://www.opencap.ai/troubleshooting for potential causes for a failed calibration.".

(** The [else] branch of the camera loop: extrinsics do not exist for
    this session. *)
Definition computeExtrinsics (md : SessionMetadata)
    (cameraModels : Dict string) (camName camDir : string)
  : M (option CamParams) :=
  model ← subscript cameraModels camName;
  let intrinsicDir := path_join3 (baseDir env) "CameraIntrinsics" model in
  let permIntrinsicDir :=
    path_join intrinsicDir (intrinsicsFinalFolder args) in
  ex ← path_exists permIntrinsicDir;
  CamParams0 ←
    (if ex : bool then
       loadCameraParameters camName
         (path_join permIntrinsicDir "cameraIntrinsics.pickle")
     else
       raise (mkExc KException [intrinsicsMissing; intrinsicsMissing]));
  let useSecondExtrinsicsSolution :=
    match alternateExtrinsics args with
    | Some alt => bool_decide (camName ∈ alt)
    | None => false
    end in
  let pathVideoWithoutExtension :=
    path_join4 camDir "InputMedia" (trialName args) (trial_id args) in
  extension ← query (getVideoExtension env pathVideoWithoutExtension);
  let extrinsicPath :=
    path_join4 camDir "InputMedia" (trialName args)
      (trial_id args +:+ extension) in
  CamParams1 ←
    extern (EvRotateIntrinsics camName CamParams0 extrinsicPath)
      (rotateIntrinsics env CamParams0 extrinsicPath);
  let a := {| ca_path := extrinsicPath;
              ca_CamParams := CamParams1;
              ca_CheckerBoardParams := checkerBoardParams md;
              ca_visualize := false;
              ca_imageUpsampleFactor := imageUpsampleFactor args;
              ca_useSecondExtrinsicsSolution :=
                useSecondExtrinsicsSolution |} in
  r ← try_stage env calibrationFailed
        (extern (EvCalcExtrinsics camName a)
           (calcExtrinsicsFromVideo env a));
  ret (match r with Some c => c | None => CamParams1 end).

(** One iteration of the camera loop. *)
Definition calibrateCamera (md : SessionMetadata)
    (cameraModels : Dict string) (cam : string * string)
    (acc : Dict (option CamParams) * Dict bool)
  : M (Dict (option CamParams) * Dict bool) :=
  let '(camName, camDir) := cam in
  let '(CamParamDict, loadedCamParams) := acc in
  ex ← path_exists (path_join camDir cacheFile);
  '(CamParams, loaded) ←
    (if ex : bool then
       c ← loadCameraParameters camName (path_join camDir cacheFile);
       ret (c, true)
     else
       c ← computeExtrinsics md cameraModels camName camDir;
       ret (c, false));
  ret (dict_set CamParamDict camName CamParams,
       dict_set loadedCamParams camName loaded).

(** [all(...)] over the values of [loadedCamParams]. *)
Definition all_loaded (loadedCamParams : Dict bool) : bool :=
  forallb (fun b => b) (dict_values loadedCamParams).

Definition saveAll (cameraDirectories : Dict string)
    (CamParamDict : Dict (option CamParams)) : M unit :=
  for_each CamParamDict
    (fun '(camName, c) _ =>
       camDir ← subscript cameraDirectories camName;
       saveCameraParameters (path_join camDir cacheFile) c)
    tt.

(** The calibration region.  Returns [cameraDirectories] and
    [CamParamDict]. *)
Definition calibration (md : SessionMetadata)
  : M (Dict string * Dict (option CamParams)) :=
  '(cameraDirectories, cameraModels) ← collectCameras md;
  '(CamParamDict, loadedCamParams) ←
    for_each cameraDirectories (calibrateCamera md cameraModels) ([], []);
  (if all_loaded loadedCamParams then ret tt
   else saveAll cameraDirectories CamParamDict);;
  ret (cameraDirectories, CamParamDict).

(** *** 3D reconstruction: output names *)

Definition pathOutputFile (mdfn : string) : string :=
  if benchmark args then
    path_join (preAugmentationDir mdfn) (trialName args +:+ ".trc")
  else
    path_join (preAugmentationDir mdfn) (trial_id args +:+ ".trc").

Definition trialRelativePath0 : string :=
  path_join3 "InputMedia" (trialName args) (trial_id args).

(** *** Pose detection *)

Definition placementUnsupported : string :=
  "checkerBoard placement value in             sessionMetadata.yaml is not currently supported".

Definition poseDetectionFailed : string :=
  "Pose detection failed. Verify your setup and try again. 
                    Visit https://www.opencap.ai/best-pratices to learn more about data collection
                    and https://www.opencap.ai/troubleshooting for potential causes for a failed trial.".

(** Rotation angles from the motion capture environment to OpenSim.  A
    scalar angle is a one-element list, the tuple of ['YZ'] a two-element
    list. *)
Definition resolveRotationAngles (checkerBoardMount : string)
    (upsideDownChecker : bool) : M RotationAngles :=
  if (String.eqb checkerBoardMount "backWall" && negb upsideDownChecker)%bool
  then ret [("y", [90%Z]); ("z", [180%Z])]
  else if (String.eqb checkerBoardMount "backWall" && upsideDownChecker)%bool
  then ret [("y", [(-90)%Z])]
  else if String.eqb checkerBoardMount "backWall_largeCB"
  then ret [("y", [(-90)%Z])]
  else if String.eqb checkerBoardMount "backWall_walking"
  then ret [("YZ", [(-90)%Z; 180%Z])]
  else if String.eqb checkerBoardMount "ground"
  then ret [("x", [(-90)%Z]); ("y", [90%Z])]
  else if String.eqb checkerBoardMount "ground_jumps"
  then ret [("x", [90%Z]); ("y", [180%Z])]
  else if String.eqb checkerBoardMount "ground_gaits"
  then ret [("x", [90%Z]); ("y", [90%Z])]
  else raise (mkExc KException [placementUnsupported]).

(** Returns [rotationAngles] (unassigned when the region is skipped) and
    the updated [trialRelativePath]. *)
Definition poseDetection (md : SessionMetadata)
    (cameraDirectories : Dict string)
    (CamParamDict : Dict (option CamParams))
  : M (option RotationAngles * string) :=
  if runPoseDetection then
    upsideDownChecker ←
      extern (EvIsCheckerboardUpsideDown CamParamDict)
        (isCheckerboardUpsideDown env CamParamDict);
    rotationAngles ←
      resolveRotationAngles (placement (checkerBoard md)) upsideDownChecker;
    r ← try_stage env poseDetectionFailed
          (pdd ← use "poseDetectorDirectory" poseDetectorDirectory;
           let a := {| pa_cameraDirectories := cameraDirectories;
                       pa_trialRelativePath := trialRelativePath0;
                       pa_poseDetectorDirectory := pdd;
                       pa_trialName := trialName args;
                       pa_CamParamDict := CamParamDict;
                       pa_resolutionPoseDetection :=
                         resolutionPoseDetection args;
                       pa_generateVideo := generateVideo;
                       pa_cams2Use := camerasToUse args;
                       pa_poseDetector := poseDetectorName;
                       pa_bbox_thr := bbox_thr args |} in
           extern (EvRunPoseDetector a) (runPoseDetector env a));
    ret (Some rotationAngles,
         match r with
         | Some videoExtension => trialRelativePath0 +:+ videoExtension
         | None => trialRelativePath0
         end)
  else ret (None, trialRelativePath0).

(** *** Synchronisation *)

Definition synchronizationFailed : string :=
  "Video synchronization failed. Verify your setup and try again. 
                    A fail-safe synchronization method is for the participant to
                    quickly raise one hand above their shoulders, then bring it back down. 
                    Visit https://www.opencap.ai/best-pratices to learn more about 
                    data collection and https://www.opencap.ai/troubleshooting for 
                    potential causes for a failed trial.".

(** Returns the seven variables bound by the call, all unassigned when the
    region is skipped or its exception is dropped by the handler. *)
Definition synchronization (cameraDirectories : Dict string)
    (CamParamDict : Dict (option CamParams)) (trialRelativePath : string)
  : M (option SyncOut) :=
  if runSynchronization then
    try_stage env synchronizationFailed
      (pdd ← use "poseDetectorDirectory" poseDetectorDirectory;
       let a := {| sa_cameraDirectories := cameraDirectories;
                   sa_trialRelativePath := trialRelativePath;
                   sa_poseDetectorDirectory := pdd;
                   sa_undistortPoints := true;
                   sa_CamParamDict := CamParamDict;
                   sa_filtFreqs := filtFreqs;
                   sa_confidenceThreshold := 4 # 10;
                   sa_imageBasedTracker := false;
                   sa_cams2Use := camerasToUse args;
                   sa_poseDetector := poseDetectorName;
                   sa_trialName := trialName args;
                   sa_resolutionPoseDetection :=
                     resolutionPoseDetection args |} in
       extern (EvSynchronizeVideos a) (synchronizeVideos env a))
  else ret None.

(** *** Automatic selection of the camera calibration *)

Definition selection (CamParamDict : Dict (option CamParams))
    (sync : option SyncOut) : M (Dict (option CamParams)) :=
  match scaleModel args, calibrationOptions args, alternateExtrinsics args with
  | true, Some options, None =>
      s ← use "keypoints2D" sync;
      extern
        (EvAutoSelectExtrinsicSolution sessionDir (keypoints2D s)
           (confidence s) options)
        (autoSelectExtrinsicSolution env sessionDir (keypoints2D s)
           (confidence s) options)
  | _, _, _ => ret CamParamDict
  end.

(** *** Triangulation *)

Definition triangulationFailed : string :=
  "Triangulation failed. Verify your setup and try again. Visit https://www.opencap.ai/best-pratices to learn more about data collection and https://www.opencap.ai/troubleshooting for potential causes for a failed trial.".

Definition insufficientFrames : string :=
  "Error - less than 10 good frames of triangulated data.".

Definition triangulation (mdfn : string)
    (cameraDirectories : Dict string)
    (CamParamDict : Dict (option CamParams))
    (sync : option SyncOut) (rotationAngles : option RotationAngles)
  : M unit :=
  if runTriangulation then
    r ← try_stage env triangulationFailed
          (s ← use "keypoints2D" sync;
           omf ← use "outputMediaFolder" outputMediaFolder;
           let a := {| ta_CamParamDict := CamParamDict;
                       ta_keypoints2D := keypoints2D s;
                       ta_ignoreMissingMarkers := false;
                       ta_cams2Use := cameras2Use s;
                       ta_confidenceDict := confidence s;
                       ta_spline3dZeros := true;
                       ta_splineMaxFrames := py_int (frameRate s / 5);
                       ta_nansInOut := nansInOut s;
                       ta_CameraDirectories := cameraDirectories;
                       ta_trialName := trialName args;
                       ta_startEndFrames := startEndFrames s;
                       ta_trialID := trial_id args;
                       ta_outputMediaFolder := omf |} in
           extern (EvTriangulate a) (triangulateMultiviewVideo env a));
    '(keypoints3D, confidence3D) ← use "keypoints3D" r;
    (* Throw an error if not enough data *)
    (if (shape2 keypoints3D <? 10)%Z then
       raise (mkExc KException [insufficientFrames; insufficientFrames])
     else ret tt);;
    (* Write TRC. *)
    s ← use "keypointNames" sync;
    rot ← use "rotationAngles" rotationAngles;
    let a := {| trc_keypoints3D := keypoints3D;
                trc_path := pathOutputFile mdfn;
                trc_keypointNames := keypointNames s;
                trc_frameRate := frameRate s;
                trc_rotationAngles := rot |} in
    extern (EvWriteTRC a) (writeTRCfrom3DKeypoints env a)
  else ret tt.

(** *** Augmentation *)

Definition augmentationFailed : string :=
  "Marker augmentation failed. Verify your setup and try again. Visit https://www.opencap.ai/best-pratices to learn more about data collection and https://www.opencap.ai/troubleshooting for potential causes for a failed trial.".

Definition pathAugmentedOutputFile (md : SessionMetadata) (mdfn : string)
  : string :=
  if genericFolderNames args then
    path_join (postAugmentationDir md mdfn) (trial_id args +:+ ".trc")
  else if benchmark args then
    path_join (postAugmentationDir md mdfn)
      (trialName args +:+ "_" +:+ markerAugmenterModel md +:+ ".trc")
  else
    path_join (postAugmentationDir md mdfn)
      (trial_id args +:+ "_" +:+ markerAugmenterModel md +:+ ".trc").

(** Returns [vertical_offset] and [vertical_offset_settings]. *)
Definition augmentation (md : SessionMetadata) (mdfn : string)
  : M (option Q * option Q) :=
  if runMarkerAugmentation then
    makedirs (postAugmentationDir md mdfn);;
    let a := {| au_pathInput := pathOutputFile mdfn;
                au_mass := mass_kg md;
                au_height := height_m md;
                au_pathOutput := pathAugmentedOutputFile md mdfn;
                au_augmenterDir := path_join (baseDir env) "MarkerAugmenter";
                au_augmenterModelName := markerAugmenterModel md;
                au_augmenter_model := augmenterModel md;
                au_offset := offset args |} in
    vertical_offset ←
      try_stage env augmentationFailed
        (extern (EvAugmentTRC a) (augmentTRC env a));
    if offset args then
      vo ← use "vertical_offset" vertical_offset;
      ret (Some (1 # 100), Some (vo - (1 # 100))%Q)
    else ret (vertical_offset, None)
  else ret (None, None).

(** *** OpenSim pipeline *)

Definition scalingFailed : string :=
  "Musculoskeletal model scaling failed. Verify your setup and try again. Visit https://www.opencap.ai/best-pratices to learn more about data collection and https://www.opencap.ai/troubleshooting for potential causes for a failed neutral pose.".

Definition ikFailed : string :=
  "Inverse kinematics failed. Verify your setup and try again. Visit https://www.opencap.ai/best-pratices to learn more about data collection and https://www.opencap.ai/troubleshooting for potential causes for a failed trial.".

Definition openSimFolderName : M string :=
  if genericFolderNames args then ret "OpenSimData"
  else
    s ← use "suff_pd" suff_pd;
    let name := path_join "OpenSimData" (poseDetectorName +:+ s) in
    ret (match markerDataFolderNameSuffix args with
         | Some suffix => path_join name suffix
         | None => name
         end).

(** [try: ... except Exception as e: print(...)]: every exception is
    dropped. *)
Definition try_any {A} (m : M A) : M (option A) :=
  fun fs =>
    match m fs with
    | (Ok a, fs1, ev) => (Ok (Some a), fs1, ev)
    | (Raise _, fs1, ev) => (Ok None, fs1, ev)
    end.

(** The [while thresholdPosition <= maxThreshold and not success] loop.
    The threshold of attempt [k] is [0.003] plus [k] increments of
    [0.001]; in binary64 the accumulated sum first exceeds [0.015] at
    [k = 12], so the loop body runs at most twelve times
    ([scaleAttempts]). *)
Fixpoint scaleTimeRangeSearch (pathTRC : string) (attempt fuel : nat)
  : M (option (Q * Q)) :=
  match fuel with
  | O => ret None
  | S fuel' =>
      r ← try_any (extern (EvGetScaleTimeRange pathTRC attempt)
                     (getScaleTimeRange env pathTRC attempt));
      match r with
      | Some timeRange4Scaling => ret (Some timeRange4Scaling)
      | None => scaleTimeRangeSearch pathTRC (S attempt) fuel'
      end
  end.

Definition scaleAttempts : nat := 12.

(** The [if scaleModel:] branch.  The time-range search sits inside the
    outer [try] of the source but cannot raise; it is sequenced before the
    handler here so that [timeRange4Scaling] stays readable after it. *)
Definition scaling (md : SessionMetadata) (mdfn openSimDir : string)
    (cameraDirectories : Dict string) (sync : option SyncOut)
  : M (option string * option string) :=
  let openSimPipelineDir := path_join (baseDir env) "opensimPipeline" in
  let outputScaledModelDir := path_join openSimDir "Model" in
  let suffix_model :=
    if contains "shoulder" (openSimModel md) then "_shoulder" else "" in
  makedirs outputScaledModelDir;;
  let pathTRCFile4Scaling := pathAugmentedOutputFile md mdfn in
  timeRange4Scaling ← scaleTimeRangeSearch pathTRCFile4Scaling 0 scaleAttempts;
  pathScaledModel ←
    try_stage env scalingFailed
      (tr ← use "timeRange4Scaling" timeRange4Scaling;
       let a := {| sc_setupFile :=
                     path_join3 openSimPipelineDir "Scaling"
                       "Setup_scaling_RajagopalModified2016_withArms_KA.xml";
                   sc_genericModel :=
                     path_join3 openSimPipelineDir "Models"
                       (openSimModel md +:+ ".osim");
                   sc_mass := mass_kg md;
                   sc_pathTRC := pathTRCFile4Scaling;
                   sc_timeRange := tr;
                   sc_outputDir := outputScaledModelDir;
                   sc_subjectHeight := height_m md;
                   sc_suffix_model := suffix_model |} in
       extern (EvRunScaleTool a) (runScaleTool env a));
  let staticImagesFolderDir := path_join sessionDir "NeutralPoseImages" in
  makedirs staticImagesFolderDir;;
  s ← use "cameras2Use" sync;
  tr ← use "timeRange4Scaling" timeRange4Scaling;
  extern
    (EvPopNeutralPoseImages cameraDirectories (cameras2Use s) (fst tr)
       staticImagesFolderDir (trial_id args))
    (popNeutralPoseImages env cameraDirectories (cameras2Use s) (fst tr)
       staticImagesFolderDir (trial_id args));;
  p ← use "pathScaledModel" pathScaledModel;
  ret (Some p, Some (drop_last5 p +:+ ".mot")).

(** The [if not scaleModel:] branch. *)
Definition inverseKinematics (md : SessionMetadata) (mdfn openSimDir : string)
  : M (option string * option string) :=
  let openSimPipelineDir := path_join (baseDir env) "opensimPipeline" in
  let outputScaledModelDir := path_join openSimDir "Model" in
  let suffix_model :=
    if contains "shoulder" (openSimModel md) then "_shoulder" else "" in
  let outputIKDir := path_join openSimDir "Kinematics" in
  makedirs outputIKDir;;
  let pathScaledModel :=
    path_join outputScaledModelDir (openSimModel md +:+ "_scaled.osim") in
  ex ← path_exists pathScaledModel;
  if ex : bool then
    let pathGenericSetupFile4IK :=
      path_join3 openSimPipelineDir "IK"
        ("Setup_IK" +:+ suffix_model +:+ ".xml") in
    let pathTRCFile4IK := pathAugmentedOutputFile md mdfn in
    pathOutputIK ←
      try_stage env ikFailed
        (extern
           (EvRunIKTool pathGenericSetupFile4IK pathScaledModel
              pathTRCFile4IK outputIKDir)
           (runIKTool env pathGenericSetupFile4IK pathScaledModel
              pathTRCFile4IK outputIKDir));
    ret (Some pathScaledModel, pathOutputIK)
  else raise (mkExc KValueError ["No scaled model available."]).

Definition openSimPipeline (md : SessionMetadata) (mdfn : string)
    (cameraDirectories : Dict string) (sync : option SyncOut)
    (vertical_offset : option Q) : M unit :=
  if runOpenSimPipeline then
    osfn ← openSimFolderName;
    let openSimDir := path_join sessionDir osfn in
    '(pathScaledModel, pathOutputIK) ←
      (if scaleModel args then
         scaling md mdfn openSimDir cameraDirectories sync
       else inverseKinematics md mdfn openSimDir);
    let outputJsonVisDir :=
      path_join3 sessionDir "VisualizerJsons" (trialName args) in
    makedirs outputJsonVisDir;;
    let outputJsonVisPath :=
      path_join outputJsonVisDir (trialName args +:+ ".json") in
    pm ← use "pathScaledModel" pathScaledModel;
    pik ← use "pathOutputIK" pathOutputIK;
    vo ← use "vertical_offset" vertical_offset;
    extern (EvGenerateVisualizerJson pm pik outputJsonVisPath vo)
      (generateVisualizerJson env pm pik outputJsonVisPath vo)
  else ret tt.

(** *** Rewrite settings, adding offset *)

Definition rewriteSettings (md : SessionMetadata) (mdfn : string)
    (vertical_offset_settings : option Q) : M unit :=
  if (negb (extrinsicsTrial args) && offset args)%bool then
    vos ← use "vertical_offset_settings" vertical_offset_settings;
    dump_settings (pathSettings md mdfn)
      (dict_set (settings0 md) "verticalOffset" (VFloat vos))
  else ret tt.

(** *** The whole of [main]

    [runCameraCalibration] is [True] on every path, so the calibration
    region always runs. *)
Definition main : M unit :=
  '(md, mdfn) ← setup;
  '(cameraDirectories, CamParamDict) ← calibration md;
  '(rotationAngles, trialRelativePath) ←
    poseDetection md cameraDirectories CamParamDict;
  sync ← synchronization cameraDirectories CamParamDict trialRelativePath;
  CamParamDict ← selection CamParamDict sync;
  triangulation mdfn cameraDirectories CamParamDict sync rotationAngles;;
  '(vertical_offset, vertical_offset_settings) ← augmentation md mdfn;
  openSimPipeline md mdfn cameraDirectories sync vertical_offset;;
  rewriteSettings md mdfn vertical_offset_settings.

End Pipeline.

(** * Vocabulary for the properties *)

(** A property of call logs that holds of the empty log and survives
    concatenation. *)
Class TraceClosed (P : list Event → Prop) := {
  closed_nil : P [];
  closed_app : ∀ l1 l2, P l1 → P l2 → P (l1 ++ l2) }.

(** Every run of [m] leaves a log that satisfies [P]. *)
Definition traces (P : list Event → Prop) {A} (m : M A) : Prop :=
  ∀ fs, P (m fs).2.

(** ** Which region logs which call *)

Inductive Region :=
  | RFolders | RSettings | RCalibration | RPoseDetection | RSynchronization
  | RSelection | RTriangulation | RWriteTRC | RAugmentation | ROpenSim.

Definition region_of (ev : Event) : Region :=
  match ev with
  | EvMakedirs _ => RFolders
  | EvDumpSettings _ _ => RSettings
  | EvLoadCameraParameters _ _ | EvRotateIntrinsics _ _ _
  | EvCalcExtrinsics _ _ | EvSaveCameraParameters _ _ => RCalibration
  | EvIsCheckerboardUpsideDown _ | EvRunPoseDetector _ => RPoseDetection
  | EvSynchronizeVideos _ => RSynchronization
  | EvAutoSelectExtrinsicSolution _ _ _ _ => RSelection
  | EvTriangulate _ => RTriangulation
  | EvWriteTRC _ => RWriteTRC
  | EvAugmentTRC _ => RAugmentation
  | EvGetScaleTimeRange _ _ | EvRunScaleTool _
  | EvPopNeutralPoseImages _ _ _ _ _ | EvRunIKTool _ _ _ _
  | EvGenerateVisualizerJson _ _ _ _ => ROpenSim
  end.

Definition region_in (rs : list Region) (ev : Event) : bool :=
  existsb
    (fun r =>
       match r, region_of ev with
       | RFolders, RFolders | RSettings, RSettings
       | RCalibration, RCalibration | RPoseDetection, RPoseDetection
       | RSynchronization, RSynchronization | RSelection, RSelection
       | RTriangulation, RTriangulation | RWriteTRC, RWriteTRC
       | RAugmentation, RAugmentation | ROpenSim, ROpenSim => true
       | _, _ => false
       end) rs.

(** All logged calls belong to the regions [rs]. *)
Definition within (rs : list Region) (evs : list Event) : Prop :=
  Forall (fun ev => region_in rs ev = true) evs.

(** ** Predicates used in the statements *)

(** The result and the call log of a run. *)
Definition result_of {A} (x : Res A * gmap string FileData * list Event)
  : Res A := x.1.1.

Definition log_of {A} (x : Res A * gmap string FileData * list Event)
  : list Event := x.2.


(** [ev] is not a recomputation for camera [cam]: a load tagged [cam]
    reads the cache file [p], and no rotation of intrinsics or extrinsics
    solve is tagged [cam]. *)
Definition cache_only (cam p : string) (ev : Event) : Prop :=
  match ev with
  | EvLoadCameraParameters cam' p' => cam' = cam → p' = p
  | EvRotateIntrinsics cam' _ _ => cam' ≠ cam
  | EvCalcExtrinsics cam' _ => cam' ≠ cam
  | _ => True
  end.

(** Every call logged in [evs] carries the tag [cam], or none. *)
Definition tagged (cam : string) (ev : Event) : Prop :=
  match ev with
  | EvLoadCameraParameters cam' _ => cam' = cam
  | EvRotateIntrinsics cam' _ _ => cam' = cam
  | EvCalcExtrinsics cam' _ => cam' = cam
  | _ => True
  end.

(** Every extrinsics solve in the log comes right after the load of the
    intrinsics and their rotation for the same video, and is given the
    rotated intrinsics; [fs] is the store the intrinsics are read from. *)
Definition rotated_before_solve (env : Env) (fs : gmap string FileData)
    (evs : list Event) : Prop :=
  ∀ pre cam a post,
    evs = pre ++ EvCalcExtrinsics cam a :: post →
    ∃ pre' p c0,
      pre = pre' ++ [EvLoadCameraParameters cam p;
                     EvRotateIntrinsics cam c0 (ca_path a)] ∧
      fs !! p = Some (FPickle c0) ∧
      rotateIntrinsics env c0 (ca_path a) = Ok (ca_CamParams a).


(** The filter table of every synchroniser call is [filtFreqs]. *)
Definition sync_table (ev : Event) : Prop :=
  match ev with
  | EvSynchronizeVideos a => sa_filtFreqs a = filtFreqs
  | _ => True
  end.

(** The arguments of the triangulator calls in a log. *)
Definition triangulate_calls (evs : list Event) : list TriArgs :=
  flat_map (fun ev => match ev with EvTriangulate a => [a] | _ => [] end) evs.

(** The arguments of the synchroniser calls in a log. *)
Definition synchronize_calls (evs : list Event) : list SyncArgs :=
  flat_map
    (fun ev => match ev with EvSynchronizeVideos a => [a] | _ => [] end) evs.

(** The calls of a log that belong to the regions [rs]. *)
Definition calls_in (rs : list Region) (evs : list Event) : list Event :=
  List.filter (region_in rs) evs.

(** ** A concrete session, for examples *)

Definition demo_metadata (place : string) : SessionMetadata :=
  {| augmentermodel := None;
     openSimModel := "LaiUhlrich2022";
     checkerBoard := {| black2BlackCornersWidth_n := 4;
                        black2BlackCornersHeight_n := 5;
                        squareSideLength_mm := 35 # 1;
                        placement := place |};
     iphoneModel := [("Cam0", "iPhone13,3"); ("Cam1", "iPhone12,1")];
     markerAugmenterModel := "LSTM";
     mass_kg := 70 # 1;
     height_m := 18 # 10 |}.

Definition demo_sync (fps : Q) : SyncOut :=
  {| keypoints2D := Obj 10;
     confidence := Obj 11;
     keypointNames := ["Neck"; "RShoulder"];
     frameRate := fps;
     nansInOut := Obj 12;
     startEndFrames := Obj 13;
     cameras2Use := ["Cam0"; "Cam1"] |}.

(** A world with two cameras in which every collaborator succeeds; the
    static-pose search fails twice before it finds a time range. *)
Definition demo_env (place : string) (fps : Q) (nframes : Z) : Env :=
  {| baseDir := "/opencap";
     getDataDirectory := fun _ => "/data";
     getOpenPoseDirectory := fun _ => "/openpose";
     getMMposeDirectory := fun _ => "/mmpose";
     str_float := fun _ => "0.8";
     format_exc := fun _ => "Traceback (most recent call last)";
     glob_cams := fun _ =>
       ["/data/Data/s1/Videos/Cam0"; "/data/Data/s1/Videos/Cam1"];
     importMetadata := fun _ => Ok (demo_metadata place);
     getVideoExtension := fun _ => Ok ".mov";
     rotateIntrinsics := fun c _ =>
       Ok (match c with
           | Some (Obj n) => Some (Obj (n + 100))
           | None => None
           end);
     calcExtrinsicsFromVideo := fun a =>
       Ok (match ca_CamParams a with
           | Some (Obj n) => Some (Obj (n + 1000))
           | None => None
           end);
     isCheckerboardUpsideDown := fun _ => Ok false;
     runPoseDetector := fun _ => Ok ".mov";
     synchronizeVideos := fun _ => Ok (demo_sync fps);
     autoSelectExtrinsicSolution := fun _ _ _ _ =>
       Ok [("Cam0", Some (Obj 50)); ("Cam1", Some (Obj 51))];
     triangulateMultiviewVideo := fun _ =>
       Ok (mkK3D (3, 2, nframes)%Z (Obj 20), Obj 21);
     writeTRCfrom3DKeypoints := fun _ => Ok tt;
     augmentTRC := fun _ => Ok (3 # 100);
     getScaleTimeRange := fun _ k =>
       if Nat.ltb k 2 then Raise (mkExc KException ["no static pose"])
       else Ok (1 # 1, 2 # 1);
     runScaleTool := fun a =>
       Ok (path_join (sc_outputDir a) "LaiUhlrich2022_scaled.osim");
     popNeutralPoseImages := fun _ _ _ _ _ => Ok tt;
     runIKTool := fun _ _ _ out => Ok (path_join out "t42.mot");
     generateVisualizerJson := fun _ _ _ _ => Ok tt |}.

Definition demo_args (extrinsics scale : bool) (options : option PyObj)
  : Args :=
  {| sessionName := "s1";
     trialName := "walk";
     trial_id := "t42";
     camerasToUse := ["all"];
     intrinsicsFinalFolder := "Deployed";
     isDocker := true;
     extrinsicsTrial := extrinsics;
     alternateExtrinsics := None;
     calibrationOptions := options;
     markerDataFolderNameSuffix := None;
     imageUpsampleFactor := 4;
     poseDetector := "OpenPose";
     resolutionPoseDetection := "default";
     scaleModel := scale;
     bbox_thr := 8 # 10;
     augmenter_model := "v0.3";
     genericFolderNames := false;
     offset := true;
     benchmark := false;
     dataDir := None;
     overwriteAugmenterModel := false |}.

(** The store before the trial: intrinsics for the model of [Cam0], and an
    extrinsics cache entry for [Cam1]. *)
Definition demo_files : gmap string FileData :=
  <["/opencap/CameraIntrinsics/iPhone13,3/Deployed" := FDir]>
    (<["/opencap/CameraIntrinsics/iPhone13,3/Deployed/cameraIntrinsics.pickle"
        := FPickle (Some (Obj 1))]>
       (<["/data/Data/s1/Videos/Cam1/cameraIntrinsicsExtrinsics.pickle"
           := FPickle (Some (Obj 2))]> ∅)).

(** The same store after an earlier neutral trial has left a scaled
    model. *)
Definition demo_files_scaled : gmap string FileData :=
  <["/data/Data/s1/OpenSimData/OpenPose_default/Model/LaiUhlrich2022_scaled.osim"
     := FOther]> demo_files.

(** * Reasoning about runs *)

(** ** Inversion of a sequenced run *)

Lemma bind_run {A B} (m : M A) (f : A → M B) fs :
  (m ≫= f) fs =
  match m fs with
  | (Ok a, fs1, ev1) =>
      match f a fs1 with (r, fs2, ev2) => (r, fs2, ev1 ++ ev2) end
  | (Raise e, fs1, ev1) => (Raise e, fs1, ev1)
  end.
Proof. reflexivity. Qed.

Lemma bind_inv {A B} (m : M A) (f : A → M B) fs r fs' evs :
  (m ≫= f) fs = (r, fs', evs) →
  (∃ e, m fs = (Raise e, fs', evs) ∧ r = Raise e) ∨
  (∃ a fs1 ev1 ev2,
      m fs = (Ok a, fs1, ev1) ∧ f a fs1 = (r, fs', ev2) ∧ evs = ev1 ++ ev2).
Proof.
  rewrite bind_run.
  destruct (m fs) as [[[a | e] fs1] ev1].
  - destruct (f a fs1) as [[r2 fs2] ev2] eqn:Hf.
    intros [= <- <- <-]. right. by exists a, fs1, ev1, ev2.
  - intros [= <- <- <-]. left. by exists e.
Qed.

Lemma bind_ok {A B} (m : M A) (f : A → M B) fs a fs1 ev1 :
  m fs = (Ok a, fs1, ev1) →
  (m ≫= f) fs =
  match f a fs1 with (r, fs2, ev2) => (r, fs2, ev1 ++ ev2) end.
Proof. intros H. by rewrite bind_run, H. Qed.

(** ** Properties of the call log that survive sequencing *)

#[global] Instance Forall_closed (Q : Event → Prop) : TraceClosed (Forall Q).
Proof. split; [constructor | intros; by apply Forall_app]. Qed.


Lemma traces_run P {A} (m : M A) fs r fs' evs :
  traces P m → m fs = (r, fs', evs) → P evs.
Proof. intros H E. specialize (H fs). by rewrite E in H. Qed.

Section TraceRules.
Context (P : list Event → Prop) `{!TraceClosed P}.

Lemma traces_ret {A} (a : A) : traces P (ret a).
Proof. intros fs. apply closed_nil. Qed.

Lemma traces_mret {A} (a : A) : traces P (mret a).
Proof. intros fs. apply closed_nil. Qed.

Lemma traces_raise {A} e : traces P (@raise A e).
Proof. intros fs. apply closed_nil. Qed.

Lemma traces_query {A} (r : Res A) : traces P (query r).
Proof. intros fs. apply closed_nil. Qed.

Lemma traces_use {A} name (v : option A) : traces P (use name v).
Proof. destruct v; [apply traces_ret | apply traces_raise]. Qed.

Lemma traces_subscript {V} (d : Dict V) k : traces P (subscript d k).
Proof.
  unfold subscript. destruct (dict_get d k); [apply traces_ret | apply traces_raise].
Qed.

Lemma traces_path_exists p : traces P (path_exists p).
Proof. intros fs. apply closed_nil. Qed.

Lemma traces_bind {A B} (m : M A) (f : A → M B) :
  traces P m → (∀ a, traces P (f a)) → traces P (m ≫= f).
Proof.
  intros Hm Hf fs. rewrite bind_run.
  destruct (m fs) as [[[a | e] fs1] ev1] eqn:E.
  - destruct (f a fs1) as [[r2 fs2] ev2] eqn:E2. simpl.
    apply closed_app; [eapply traces_run, E | eapply traces_run, E2]; auto.
  - simpl. eapply traces_run, E. auto.
Qed.

Lemma traces_extern {A} ev (r : Res A) : P [ev] → traces P (extern ev r).
Proof. intros H fs. exact H. Qed.

Lemma traces_makedirs p : P [EvMakedirs p] → traces P (makedirs p).
Proof. intros H fs. exact H. Qed.

Lemma traces_dump_settings p s :
  P [EvDumpSettings p s] → traces P (dump_settings p s).
Proof. intros H fs. exact H. Qed.

Lemma traces_loadCameraParameters cam p :
  P [EvLoadCameraParameters cam p] → traces P (loadCameraParameters cam p).
Proof. intros H fs. exact H. Qed.

Lemma traces_saveCameraParameters p c :
  P [EvSaveCameraParameters p c] → traces P (saveCameraParameters p c).
Proof. intros H fs. exact H. Qed.

Lemma traces_try_stage env {A} generic (m : M A) :
  traces P m → traces P (try_stage env generic m).
Proof.
  intros H fs. unfold try_stage. specialize (H fs).
  by destruct (m fs) as [[r fs1] ev].
Qed.

Lemma traces_try_any {A} (m : M A) : traces P m → traces P (try_any m).
Proof.
  intros H fs. unfold try_any. specialize (H fs).
  by destruct (m fs) as [[[a | e] fs1] ev].
Qed.

Lemma traces_for_each {X S} (xs : list X) (body : X → S → M S) acc :
  (∀ x s, traces P (body x s)) → traces P (for_each xs body acc).
Proof.
  intros Hb. revert acc.
  induction xs as [| x xs IH]; intros acc; simpl.
  - apply traces_ret.
  - apply traces_bind; [apply Hb | apply IH].
Qed.

End TraceRules.

(** Decompose a goal [traces P m] along the structure of [m]; what is left
    are the logged calls, one goal [P [ev]] each. *)
Ltac traces_step :=
  lazymatch goal with
  | |- TraceClosed _ => apply _
  | |- ∀ _, _ => intros ?
  | |- traces _ (mbind _ _) => apply traces_bind
  | |- traces _ (ret _) => apply traces_ret
  | |- traces _ (mret _) => apply traces_mret
  | |- traces _ (raise _) => apply traces_raise
  | |- traces _ (query _) => apply traces_query
  | |- traces _ (use _ _) => apply traces_use
  | |- traces _ (subscript _ _) => apply traces_subscript
  | |- traces _ (path_exists _) => apply traces_path_exists
  | |- traces _ (extern _ _) => apply traces_extern
  | |- traces _ (makedirs _) => apply traces_makedirs
  | |- traces _ (dump_settings _ _) => apply traces_dump_settings
  | |- traces _ (loadCameraParameters _ _) =>
      apply traces_loadCameraParameters
  | |- traces _ (saveCameraParameters _ _) =>
      apply traces_saveCameraParameters
  | |- traces _ (try_stage _ _ _) => apply traces_try_stage
  | |- traces _ (try_any _) => apply traces_try_any
  | |- traces _ (for_each _ _ _) => apply traces_for_each
  | |- traces _ (if ?b then _ else _) => destruct b eqn:?
  | |- traces _ (match ?x with _ => _ end) => destruct x eqn:?
  | |- traces _ ((match ?x with _ => _ end) _) =>
      destruct x eqn:?; cbv beta iota
  | |- traces _ ((match ?x with _ => _ end) _ _) =>
      destruct x eqn:?; cbv beta iota
  end.

Ltac traces_auto := repeat traces_step.
(** ** Which region logs which call *)

#[global] Instance within_closed rs : TraceClosed (within rs).
Proof. exact (Forall_closed (fun ev => region_in rs ev = true)). Qed.

Lemma within_one rs ev : region_in rs ev = true → within rs [ev].
Proof. intros H. by constructor. Qed.

Lemma within_mono rs rs' evs :
  (∀ ev, region_in rs ev = true → region_in rs' ev = true) →
  within rs evs → within rs' evs.
Proof. intros H Hw. eapply Forall_impl; [exact Hw | exact H]. Qed.

Lemma within_In rs evs ev :
  within rs evs → In ev evs → region_in rs ev = true.
Proof.
  intros H Hin. unfold within in H. rewrite Forall_forall in H.
  apply H. by apply list_elem_of_In.
Qed.

Ltac within_auto := traces_auto; try (apply within_one; reflexivity).

Section Regions.
Context (env : Env) (args : Args).

Lemma setup_region : traces (within [RFolders; RSettings]) (setup env args).
Proof. unfold setup, markerDataFolderName. within_auto. Qed.

Lemma collectCameras_region md :
  traces (within [RCalibration]) (collectCameras env args md).
Proof. unfold collectCameras. within_auto. Qed.

Lemma computeExtrinsics_region md models camName camDir :
  traces (within [RCalibration])
    (computeExtrinsics env args md models camName camDir).
Proof. unfold computeExtrinsics. within_auto. Qed.

Lemma calibration_region md :
  traces (within [RCalibration]) (calibration env args md).
Proof.
  unfold calibration.
  apply traces_bind; [apply _ | apply collectCameras_region |].
  within_auto; unfold calibrateCamera, saveAll; within_auto.
  apply computeExtrinsics_region.
Qed.

Lemma poseDetection_region md dirs cpd :
  traces (within [RPoseDetection]) (poseDetection env args md dirs cpd).
Proof. unfold poseDetection, resolveRotationAngles. within_auto. Qed.

Lemma synchronization_region dirs cpd trp :
  traces (within [RSynchronization]) (synchronization env args dirs cpd trp).
Proof. unfold synchronization. within_auto. Qed.

Lemma selection_region cpd sync :
  traces (within [RSelection]) (selection env args cpd sync).
Proof. unfold selection. within_auto. Qed.

Lemma triangulation_region mdfn dirs cpd sync rot :
  traces (within [RTriangulation; RWriteTRC])
    (triangulation env args mdfn dirs cpd sync rot).
Proof. unfold triangulation. within_auto. Qed.

Lemma augmentation_region md mdfn :
  traces (within [RFolders; RAugmentation]) (augmentation env args md mdfn).
Proof. unfold augmentation. within_auto. Qed.

Lemma scaleTimeRangeSearch_region path k fuel :
  traces (within [RFolders; ROpenSim])
    (scaleTimeRangeSearch env path k fuel).
Proof.
  revert k. induction fuel as [| fuel IH]; intros k; simpl.
  - traces_auto.
  - within_auto. apply IH.
Qed.

Lemma openSimPipeline_region md mdfn dirs sync vo :
  traces (within [RFolders; ROpenSim])
    (openSimPipeline env args md mdfn dirs sync vo).
Proof.
  unfold openSimPipeline, openSimFolderName, scaling, inverseKinematics.
  within_auto. apply scaleTimeRangeSearch_region.
Qed.

Lemma rewriteSettings_region md mdfn vos :
  traces (within [RSettings]) (rewriteSettings env args md mdfn vos).
Proof. unfold rewriteSettings. within_auto. Qed.

End Regions.

(** ** Symbolic execution of a run *)

Lemma ret_inv {A} (a : A) fs r fs' evs :
  ret a fs = (r, fs', evs) → r = Ok a ∧ fs' = fs ∧ evs = [].
Proof. by intros [= <- <- <-]. Qed.

Lemma mret_inv {A} (a : A) fs r fs' evs :
  mret (M := M) a fs = (r, fs', evs) → r = Ok a ∧ fs' = fs ∧ evs = [].
Proof. by intros [= <- <- <-]. Qed.

Lemma raise_inv {A} e fs (r : Res A) fs' evs :
  raise e fs = (r, fs', evs) → r = Raise e ∧ fs' = fs ∧ evs = [].
Proof. by intros [= <- <- <-]. Qed.

Lemma query_inv {A} (x : Res A) fs r fs' evs :
  query x fs = (r, fs', evs) → r = x ∧ fs' = fs ∧ evs = [].
Proof. by intros [= <- <- <-]. Qed.

Lemma extern_inv {A} ev (x : Res A) fs r fs' evs :
  extern ev x fs = (r, fs', evs) → r = x ∧ fs' = fs ∧ evs = [ev].
Proof. by intros [= <- <- <-]. Qed.

Lemma use_inv {A} name (v : option A) fs r fs' evs :
  use name v fs = (r, fs', evs) →
  fs' = fs ∧ evs = [] ∧
  ((∃ a, v = Some a ∧ r = Ok a) ∨ (v = None ∧ ∃ e, r = Raise e)).
Proof.
  destruct v as [a |]; intros [= <- <- <-]; repeat split; eauto.
Qed.

Lemma subscript_inv {V} (d : Dict V) k fs r fs' evs :
  subscript d k fs = (r, fs', evs) →
  fs' = fs ∧ evs = [] ∧
  ((∃ v, dict_get d k = Some v ∧ r = Ok v) ∨
   (dict_get d k = None ∧ r = Raise (mkExc KKeyError [k]))).
Proof.
  unfold subscript. destruct (dict_get d k) as [v |];
    intros [= <- <- <-]; repeat split; eauto.
Qed.

Lemma path_exists_inv p fs r fs' evs :
  path_exists p fs = (r, fs', evs) →
  r = Ok (bool_decide (is_Some (fs !! p))) ∧ fs' = fs ∧ evs = [].
Proof. by intros [= <- <- <-]. Qed.

Lemma makedirs_inv p fs r fs' evs :
  makedirs p fs = (r, fs', evs) →
  r = Ok tt ∧ evs = [EvMakedirs p] ∧
  fs' = match fs !! p with Some _ => fs | None => <[p := FDir]> fs end.
Proof. by intros [= <- <- <-]. Qed.

Lemma dump_settings_inv p st fs r fs' evs :
  dump_settings p st fs = (r, fs', evs) →
  r = Ok tt ∧ evs = [EvDumpSettings p st] ∧ fs' = <[p := FYaml st]> fs.
Proof. by intros [= <- <- <-]. Qed.

Lemma loadCameraParameters_inv cam p fs r fs' evs :
  loadCameraParameters cam p fs = (r, fs', evs) →
  fs' = fs ∧ evs = [EvLoadCameraParameters cam p] ∧
  ((∃ c, fs !! p = Some (FPickle c) ∧ r = Ok c) ∨
   ((∀ c, fs !! p ≠ Some (FPickle c)) ∧ ∃ e, r = Raise e)).
Proof.
  unfold loadCameraParameters. intros [= <- <- <-].
  repeat split. destruct (fs !! p) as [[] |]; eauto.
Qed.

Lemma saveCameraParameters_inv p c fs r fs' evs :
  saveCameraParameters p c fs = (r, fs', evs) →
  r = Ok tt ∧ evs = [EvSaveCameraParameters p c] ∧
  fs' = <[p := FPickle c]> fs.
Proof. by intros [= <- <- <-]. Qed.

Lemma try_stage_inv env {A} generic (m : M A) fs r fs' evs :
  try_stage env generic m fs = (r, fs', evs) →
  ∃ r0, m fs = (r0, fs', evs) ∧ r = handle env generic r0.
Proof.
  unfold try_stage. destruct (m fs) as [[r0 fs1] ev].
  intros [= <- <- <-]. by exists r0.
Qed.

(** Execute the run in hypothesis [H] as far as its structure is known.
    Calls of the regions of [main] are left as they are. *)
Ltac inv_run H :=
  lazymatch type of H with
  | mbind _ _ _ = _ =>
      let e := fresh "e" in
      let a := fresh "a" in
      let fs1 := fresh "fs" in
      let ev1 := fresh "ev" in
      let ev2 := fresh "ev" in
      let Hm := fresh "Hm" in
      let Eq := fresh "Eq" in
      apply bind_inv in H
        as [(e & Hm & Eq) | (a & fs1 & ev1 & ev2 & Hm & H & Eq)];
      [ inv_run Hm; simplify_eq
      | inv_run Hm; simplify_eq; cbv beta in H; inv_run H; simplify_eq ]
  | ret _ _ = _ =>
      apply ret_inv in H as (? & ? & ?); simplify_eq
  | mret _ _ = _ =>
      apply mret_inv in H as (? & ? & ?); simplify_eq
  | raise _ _ = _ =>
      apply raise_inv in H as (? & ? & ?); simplify_eq
  | query _ _ = _ =>
      apply query_inv in H as (? & ? & ?); simplify_eq
  | extern _ _ _ = _ =>
      apply extern_inv in H as (? & ? & ?); simplify_eq
  | use _ _ _ = _ =>
      apply use_inv in H as (? & ? & [(? & ? & ?) | (? & ? & ?)]);
      simplify_eq
  | subscript _ _ _ = _ =>
      apply subscript_inv in H as (? & ? & [(? & ? & ?) | (? & ?)]);
      simplify_eq
  | path_exists _ _ = _ =>
      apply path_exists_inv in H as (? & ? & ?); simplify_eq
  | makedirs _ _ = _ =>
      apply makedirs_inv in H as (? & ? & ?); simplify_eq
  | dump_settings _ _ _ = _ =>
      apply dump_settings_inv in H as (? & ? & ?); simplify_eq
  | loadCameraParameters _ _ _ = _ =>
      apply loadCameraParameters_inv in H
        as (? & ? & [(? & ? & ?) | (? & ? & ?)]); simplify_eq
  | saveCameraParameters _ _ _ = _ =>
      apply saveCameraParameters_inv in H as (? & ? & ?); simplify_eq
  | try_stage _ _ _ _ = _ =>
      let r0 := fresh "r" in
      let Hr := fresh "Hr" in
      apply try_stage_inv in H as (r0 & H & Hr); inv_run H
  | (if ?b then _ else _) _ = _ =>
      destruct b eqn:?; inv_run H
  | (match ?x with _ => _ end) _ = _ =>
      destruct x eqn:?; inv_run H
  | _ => idtac
  end.

Ltac split_ors :=
  repeat match goal with
         | H : _ ∨ _ |- _ => destruct H
         | H : False |- _ => destruct H
         | H : _ ∧ _ |- _ => destruct H
         | H : ∃ _, _ |- _ => destruct H
         end.

Lemma stage_within {A} rs (m : M A) fs r fs' evs :
  traces (within rs) m → m fs = (r, fs', evs) → within rs evs.
Proof. apply traces_run. Qed.

(** Record, for every region run among the hypotheses, the regions its log
    stays within. *)
Ltac stage_regions :=
  repeat match goal with
  | H : setup _ _ _ = (_, _, ?ev) |- _ =>
      lazymatch goal with
      | _ : within _ ev |- _ => fail
      | _ => pose proof (stage_within _ _ _ _ _ _ (setup_region _ _) H)
      end
  | H : calibration _ _ _ _ = (_, _, ?ev) |- _ =>
      lazymatch goal with
      | _ : within _ ev |- _ => fail
      | _ => pose proof (stage_within _ _ _ _ _ _ (calibration_region _ _ _) H)
      end
  | H : poseDetection _ _ _ _ _ _ = (_, _, ?ev) |- _ =>
      lazymatch goal with
      | _ : within _ ev |- _ => fail
      | _ => pose proof
               (stage_within _ _ _ _ _ _ (poseDetection_region _ _ _ _ _) H)
      end
  | H : synchronization _ _ _ _ _ _ = (_, _, ?ev) |- _ =>
      lazymatch goal with
      | _ : within _ ev |- _ => fail
      | _ => pose proof
               (stage_within _ _ _ _ _ _ (synchronization_region _ _ _ _ _) H)
      end
  | H : selection _ _ _ _ _ = (_, _, ?ev) |- _ =>
      lazymatch goal with
      | _ : within _ ev |- _ => fail
      | _ => pose proof
               (stage_within _ _ _ _ _ _ (selection_region _ _ _ _) H)
      end
  | H : triangulation _ _ _ _ _ _ _ _ = (_, _, ?ev) |- _ =>
      lazymatch goal with
      | _ : within _ ev |- _ => fail
      | _ => pose proof
               (stage_within _ _ _ _ _ _
                  (triangulation_region _ _ _ _ _ _ _) H)
      end
  | H : augmentation _ _ _ _ _ = (_, _, ?ev) |- _ =>
      lazymatch goal with
      | _ : within _ ev |- _ => fail
      | _ => pose proof
               (stage_within _ _ _ _ _ _ (augmentation_region _ _ _ _) H)
      end
  | H : openSimPipeline _ _ _ _ _ _ _ _ = (_, _, ?ev) |- _ =>
      lazymatch goal with
      | _ : within _ ev |- _ => fail
      | _ => pose proof
               (stage_within _ _ _ _ _ _
                  (openSimPipeline_region _ _ _ _ _ _ _) H)
      end
  | H : rewriteSettings _ _ _ _ _ _ = (_, _, ?ev) |- _ =>
      lazymatch goal with
      | _ : within _ ev |- _ => fail
      | _ => pose proof
               (stage_within _ _ _ _ _ _ (rewriteSettings_region _ _ _ _ _) H)
      end
  end.

(** An event cannot sit in the log of a region that never logs it. *)
Ltac wrong_region :=
  match goal with
  | Hw : within _ ?ev, Hin : In _ ?ev |- _ =>
      let Hc := fresh in
      pose proof (within_In _ _ _ Hw Hin) as Hc; cbn in Hc; discriminate Hc
  end.

(** ** What single regions do *)

Section Stages.
Context (env : Env) (args : Args).

Lemma poseDetection_rotation md dirs cpd fs rot trp fs' evs :
  poseDetection env args md dirs cpd fs = (Ok (rot, trp), fs', evs) →
  extrinsicsTrial args = false → is_Some rot.
Proof.
  unfold poseDetection, runPoseDetection. intros H Hx. rewrite Hx in H.
  inv_run H; eauto.
Qed.

Lemma triangulation_outcome mdfn dirs cpd sync rot fs r fs' evs a k3d c3d :
  triangulation env args mdfn dirs cpd sync rot fs = (r, fs', evs) →
  (extrinsicsTrial args = false → is_Some rot) →
  In (EvTriangulate a) evs →
  triangulateMultiviewVideo env a = Ok (k3d, c3d) →
  ((shape2 k3d < 10)%Z →
     r = Raise (mkExc KException [insufficientFrames; insufficientFrames]) ∧
     evs = [EvTriangulate a]) ∧
  ((10 ≤ shape2 k3d)%Z →
     ∃ w, evs = [EvTriangulate a; EvWriteTRC w] ∧ trc_keypoints3D w = k3d ∧
          r = writeTRCfrom3DKeypoints env w).
Proof.
  unfold triangulation, runTriangulation. intros H Hrot.
  destruct (extrinsicsTrial args); [by inv_run H |].
  destruct Hrot as [ro ->]; [done |].
  inv_run H; cbn [In app]; intros Hin Ha; split_ors; simplify_eq.
  all: rewrite Ha in *; cbn in *; simplify_eq.
  all: split; intros; try (exfalso; lia); eauto.
Qed.

End Stages.

(** * The claims *)

(** C1.  Whenever the triangulator has returned, a third dimension of
    [keypoints3D] below 10 makes [main] raise the two-part
    "less than 10 good frames" exception without calling the TRC writer;
    with 10 or more frames the TRC writer is called on that array. *)
Theorem insufficient_frames_is_fatal env args fs r fs' evs a k3d c3d :
  main env args fs = (r, fs', evs) →
  In (EvTriangulate a) evs →
  triangulateMultiviewVideo env a = Ok (k3d, c3d) →
  ((shape2 k3d < 10)%Z →
     r = Raise (mkExc KException [insufficientFrames; insufficientFrames]) ∧
     ∀ w, ¬ In (EvWriteTRC w) evs) ∧
  ((10 ≤ shape2 k3d)%Z →
     ∃ w, In (EvWriteTRC w) evs ∧ trc_keypoints3D w = k3d).
Proof.
  intros H Hin Ha. unfold main in H. inv_run H; stage_regions.
  all: rewrite ?in_app_iff in Hin; split_ors; try wrong_region.
  all: match goal with
       | Ht : triangulation _ _ _ _ _ _ ?o _ = _,
         Hp : poseDetection _ _ _ _ _ _ = (Ok (?o, _), _, _),
         Hi : In (EvTriangulate _) _ |- _ =>
           destruct (triangulation_outcome _ _ _ _ _ _ _ _ _ _ _ _ _ _ Ht
                       (poseDetection_rotation _ _ _ _ _ _ _ _ _ _ Hp)
                       Hi Ha) as [Hlt Hge]
       end.
  all: split; intros Hn.
  all: try (destruct (Hlt Hn) as [? ?]; simplify_eq; (split; [done |]);
            intros w Hw; rewrite ?in_app_iff in Hw; cbn [In] in Hw;
            split_ors; simplify_eq; wrong_region).
  all: destruct (Hge Hn) as (w & ? & ? & ?); simplify_eq; exists w;
       (split; [| done]); rewrite ?in_app_iff; cbn [In]; tauto.
Qed.

(** ** Runs of the concrete session *)

Lemma run_eta {A} (x : Res A * gmap string FileData * list Event) :
  x = (result_of x, x.1.2, log_of x).
Proof. by destruct x as [[? ?] ?]. Qed.

(** Find an event in the log of a closed run. *)
Ltac in_log := vm_compute; repeat first [left; reflexivity | right].

Lemma insufficient_frames_is_fatal_witness :
  result_of (main (demo_env "backWall" (60 # 1) 9)
               (demo_args false true None) demo_files) =
  Raise (mkExc KException [insufficientFrames; insufficientFrames]).
Proof.
  set (run := main _ _ _).
  let l := eval vm_compute in (triangulate_calls (log_of run)) in
  lazymatch l with
  | ?a :: _ =>
      refine (proj1 (proj1 (insufficient_frames_is_fatal _ _ _ _ _ _ a
                              (mkK3D (3, 2, 9)%Z (Obj 20)) (Obj 21)
                              (run_eta run) _ _) _))
  end.
  - in_log.
  - vm_compute; reflexivity.
  - vm_compute; reflexivity.
Defined.

(** The boundary: nine frames raise, ten frames reach the TRC writer and
    the rest of the pipeline. *)
Example nine_frames_fail_ten_succeed :
  result_of (main (demo_env "backWall" (60 # 1) 9)
               (demo_args false true None) demo_files) =
    Raise (mkExc KException [insufficientFrames; insufficientFrames]) ∧
  result_of (main (demo_env "backWall" (60 # 1) 10)
               (demo_args false true None) demo_files) = Ok tt.
Proof. split; vm_compute; reflexivity. Qed.

(** The handler turns whatever it re-raises into a two-part payload. *)
Lemma handle_two_part env {A} generic (r : Res A) e :
  handle env generic r = Raise e →
  exc_kind e = KException ∧ length (exc_args e) = 2.
Proof.
  destruct r as [a | e0]; [discriminate |]. simpl.
  destruct (exc_args e0) as [| a0 [| a1 [| a2 l]]]; intros [= <-]; done.
Qed.

(** C2.  The claim fails at two raise sites of [main].  With a placement
    outside the presets, [main] raises [Exception] with the single
    argument of line 292; with no scaled model on disk and
    [scaleModel=False], it raises [ValueError] with a single argument.
    Neither exception has a second, diagnostic part. *)
Theorem one_part_payload_sites :
  (∃ e, result_of (main (demo_env "sideWall" (60 # 1) 100)
                     (demo_args false false None) demo_files) = Raise e ∧
        e = mkExc KException [placementUnsupported] ∧
        length (exc_args e) = 1) ∧
  (∃ e, result_of (main (demo_env "ground" (60 # 1) 100)
                     (demo_args false false None) demo_files) = Raise e ∧
        e = mkExc KValueError ["No scaled model available."] ∧
        length (exc_args e) = 1).
Proof.
  split; eexists; (split; [vm_compute; reflexivity | split; reflexivity]).
Qed.

(** C9.  The upside-down flag changes the resolved rotation for the
    placement ['backWall'] and for no other placement value. *)
Theorem upside_down_matters_only_for_backWall (mount : string) :
  (mount ≠ "backWall" →
   resolveRotationAngles mount true = resolveRotationAngles mount false) ∧
  (mount = "backWall" →
   resolveRotationAngles mount true ∅ ≠ resolveRotationAngles mount false ∅).
Proof.
  split.
  - intros Hne. unfold resolveRotationAngles.
    destruct (String.eqb_spec mount "backWall") as [-> | _]; [done |].
    reflexivity.
  - intros ->. discriminate.
Qed.

Lemma upside_down_matters_only_for_backWall_witness :
  resolveRotationAngles "ground_jumps" true =
  resolveRotationAngles "ground_jumps" false.
Proof.
  apply (proj1 (upside_down_matters_only_for_backWall "ground_jumps")).
  discriminate.
Defined.

(** The six presets resolve to the same angles under either flag value,
    except ['backWall']. *)
Example presets_under_both_flags :
  Forall
    (fun mount =>
       resolveRotationAngles mount true ∅ = resolveRotationAngles mount false ∅)
    ["backWall_largeCB"; "backWall_walking"; "ground"; "ground_jumps";
     "ground_gaits"].
Proof. repeat constructor. Qed.

(** ** More about single regions *)

Lemma within_app rs l1 l2 :
  within rs l1 → within rs l2 → within rs (l1 ++ l2).
Proof. apply closed_app. Qed.

Lemma within_nil rs : within rs [].
Proof. constructor. Qed.

(** Close a goal [within rs (ev1 ++ ... ++ evn)] from the regions recorded
    for the parts. *)
Ltac within_weaken :=
  repeat apply within_app;
  first [ apply within_nil
        | eapply within_mono; [| eassumption]; intros []; cbn; congruence
        | apply within_one; reflexivity ].

Lemma in_calls_in rs ev evs :
  In ev evs → region_in rs ev = true → In ev (calls_in rs evs).
Proof. intros Hin Hr. unfold calls_in. apply filter_In. by split. Qed.


Section MoreStages.
Context (env : Env) (args : Args).



(** On an extrinsics trial every region but calibration is silent. *)
Lemma extrinsics_setup fs r fs' evs :
  extrinsicsTrial args = true →
  setup env args fs = (r, fs', evs) → within [RFolders] evs.
Proof.
  intros Hx. apply traces_run. unfold setup, markerDataFolderName.
  rewrite Hx. within_auto.
Qed.

Lemma extrinsics_poseDetection md dirs cpd fs r fs' evs :
  extrinsicsTrial args = true →
  poseDetection env args md dirs cpd fs = (r, fs', evs) →
  evs = [] ∧ ∃ trp, r = Ok (None, trp).
Proof.
  intros Hx. unfold poseDetection, runPoseDetection. rewrite Hx.
  intros H. inv_run H. eauto.
Qed.

Lemma extrinsics_synchronization dirs cpd trp fs r fs' evs :
  extrinsicsTrial args = true →
  synchronization env args dirs cpd trp fs = (r, fs', evs) →
  evs = [] ∧ r = Ok None.
Proof.
  intros Hx. unfold synchronization, runSynchronization. rewrite Hx.
  intros H. by inv_run H.
Qed.

Lemma selection_unbound cpd fs r fs' evs :
  selection env args cpd None fs = (r, fs', evs) → evs = [].
Proof. unfold selection. intros H. by inv_run H. Qed.

Lemma extrinsics_triangulation mdfn dirs cpd sync rot fs r fs' evs :
  extrinsicsTrial args = true →
  triangulation env args mdfn dirs cpd sync rot fs = (r, fs', evs) →
  evs = [].
Proof.
  intros Hx. unfold triangulation, runTriangulation. rewrite Hx.
  intros H. by inv_run H.
Qed.

Lemma extrinsics_augmentation md mdfn fs r fs' evs :
  extrinsicsTrial args = true →
  augmentation env args md mdfn fs = (r, fs', evs) → evs = [].
Proof.
  intros Hx. unfold augmentation, runMarkerAugmentation. rewrite Hx.
  intros H. by inv_run H.
Qed.

Lemma extrinsics_openSimPipeline md mdfn dirs sync vo fs r fs' evs :
  extrinsicsTrial args = true →
  openSimPipeline env args md mdfn dirs sync vo fs = (r, fs', evs) →
  evs = [].
Proof.
  intros Hx. unfold openSimPipeline, runOpenSimPipeline. rewrite Hx.
  intros H. by inv_run H.
Qed.

Lemma extrinsics_rewriteSettings md mdfn vos fs r fs' evs :
  extrinsicsTrial args = true →
  rewriteSettings env args md mdfn vos fs = (r, fs', evs) → evs = [].
Proof.
  intros Hx. unfold rewriteSettings. rewrite Hx.
  intros H. by inv_run H.
Qed.

End MoreStages.

(** Membership in a concatenated log, part by part. *)
Ltac in_parts H :=
  rewrite ?in_app_iff in H; cbn [In] in H; split_ors; simplify_eq;
  try wrong_region.

(** C10.  On an extrinsics trial ([extrinsicsTrial=True]) the log of
    [main] holds nothing but folder creation and calibration calls: no
    pose detection, synchronisation, selection, triangulation, TRC
    writing, augmentation or OpenSim call, and no settings dump. *)
Theorem extrinsics_trial_only_calibrates env args fs r fs' evs :
  main env args fs = (r, fs', evs) →
  extrinsicsTrial args = true →
  Forall (fun ev => region_of ev = RFolders ∨ region_of ev = RCalibration)
    evs.
Proof.
  intros H Hx.
  assert (Hw : within [RFolders; RCalibration] evs).
  { unfold main in H. inv_run H.
    all: repeat match goal with
         | E : setup _ _ _ = _ |- _ =>
             apply (extrinsics_setup _ _ _ _ _ _ Hx) in E
         | E : calibration _ _ _ _ = _ |- _ =>
             apply (stage_within _ _ _ _ _ _ (calibration_region _ _ _)) in E
         | E : poseDetection _ _ _ _ _ _ = _ |- _ =>
             apply (extrinsics_poseDetection _ _ _ _ _ _ _ _ _ Hx) in E
               as [-> [? ?]]
         | E : synchronization _ _ _ _ _ _ = _ |- _ =>
             apply (extrinsics_synchronization _ _ _ _ _ _ _ _ _ Hx) in E
               as [-> ?]
         | E : selection _ _ _ None _ = _ |- _ =>
             apply selection_unbound in E as ->
         | E : triangulation _ _ _ _ _ _ _ _ = _ |- _ =>
             apply (extrinsics_triangulation _ _ _ _ _ _ _ _ _ _ _ Hx) in E
               as ->
         | E : augmentation _ _ _ _ _ = _ |- _ =>
             apply (extrinsics_augmentation _ _ _ _ _ _ _ _ Hx) in E as ->
         | E : openSimPipeline _ _ _ _ _ _ _ _ = _ |- _ =>
             apply (extrinsics_openSimPipeline _ _ _ _ _ _ _ _ _ _ _ Hx) in E
               as ->
         | E : rewriteSettings _ _ _ _ _ _ = _ |- _ =>
             apply (extrinsics_rewriteSettings _ _ _ _ _ _ _ _ _ Hx) in E
               as ->
         | _ => progress simplify_eq
         end.
    all: within_weaken. }
  eapply Forall_impl; [exact Hw |].
  intros ev. destruct ev; cbn; intros; first [by left | by right | done].
Qed.

Lemma extrinsics_trial_only_calibrates_witness :
  Forall (fun ev => region_of ev = RFolders ∨ region_of ev = RCalibration)
    (log_of (main (demo_env "backWall" (60 # 1) 100)
               (demo_args true false None) demo_files)).
Proof.
  apply (extrinsics_trial_only_calibrates
           (demo_env "backWall" (60 # 1) 100) (demo_args true false None)
           demo_files _ _ _ (run_eta _)).
  reflexivity.
Defined.

(** An extrinsics trial of the concrete session: the intrinsics of [Cam0]
    are loaded, rotated and used for the solve, [Cam1] is read from its
    cache entry, and both are saved. *)
Example extrinsics_trial_log :
  map region_of
    (log_of (main (demo_env "backWall" (60 # 1) 100)
               (demo_args true false None) demo_files)) =
  [RFolders; RFolders; RCalibration; RCalibration; RCalibration;
   RCalibration; RCalibration; RCalibration].
Proof. vm_compute. reflexivity. Qed.





(** ** Synchronisation, selection and triangulation, call by call *)


Section CallByCall.
Context (env : Env) (args : Args).

Lemma synchronization_calls dirs cpd trp fs r fs' evs sa :
  synchronization env args dirs cpd trp fs = (r, fs', evs) →
  In (EvSynchronizeVideos sa) evs →
  evs = [EvSynchronizeVideos sa] ∧
  r = handle env synchronizationFailed (synchronizeVideos env sa) ∧
  sa_filtFreqs sa = filtFreqs.
Proof.
  unfold synchronization. intros H. inv_run H; cbn [In app]; intros Hin;
    split_ors; simplify_eq; done.
Qed.


Lemma triangulation_calls mdfn dirs cpd sync rot fs r fs' evs a :
  triangulation env args mdfn dirs cpd sync rot fs = (r, fs', evs) →
  In (EvTriangulate a) evs →
  ∃ s, sync = Some s ∧ ta_spline3dZeros a = true ∧
       ta_splineMaxFrames a = py_int (frameRate s / 5) ∧
       ta_CamParamDict a = cpd.
Proof.
  unfold triangulation. intros H. inv_run H; cbn [In app]; intros Hin;
    split_ors; simplify_eq; eauto.
Qed.

Lemma selection_calls cpd sync fs r fs' evs sd k c o :
  selection env args cpd sync fs = (r, fs', evs) →
  In (EvAutoSelectExtrinsicSolution sd k c o) evs →
  scaleModel args = true ∧ calibrationOptions args = Some o ∧
  alternateExtrinsics args = None ∧
  evs = [EvAutoSelectExtrinsicSolution sd k c o] ∧
  r = autoSelectExtrinsicSolution env sd k c o.
Proof.
  unfold selection. intros H. inv_run H; cbn [In app]; intros Hin;
    split_ors; simplify_eq; done.
Qed.

Lemma selection_fires cpd s fs r fs' evs o :
  scaleModel args = true → calibrationOptions args = Some o →
  alternateExtrinsics args = None →
  selection env args cpd (Some s) fs = (r, fs', evs) →
  evs = [EvAutoSelectExtrinsicSolution (sessionDir env args) (keypoints2D s)
           (confidence s) o].
Proof.
  unfold selection. intros -> -> -> H. by inv_run H.
Qed.

End CallByCall.



(** ** Properties of every call, through the whole of [main] *)

Lemma traces_within_weaken rs (Q : Event → Prop) {A} (m : M A) :
  traces (within rs) m →
  (∀ ev, region_in rs ev = true → Q ev) →
  traces (Forall Q) m.
Proof.
  intros Hm Himp fs. specialize (Hm fs).
  eapply Forall_impl; [exact Hm | exact Himp].
Qed.

(** A region satisfies [Forall Q] when [Q] holds of every call that the
    region may log at all. *)
Ltac by_region :=
  eapply traces_within_weaken;
  [ first [ apply setup_region | apply calibration_region
          | apply poseDetection_region | apply synchronization_region
          | apply selection_region | apply triangulation_region
          | apply augmentation_region | apply openSimPipeline_region
          | apply rewriteSettings_region ]
  | intros []; cbn; intros; done ].

Lemma synchronization_table env args dirs cpd trp :
  traces (Forall sync_table) (synchronization env args dirs cpd trp).
Proof.
  unfold synchronization. traces_auto. by repeat constructor.
Qed.

(** C5, as the code has it.  The filter table of every synchroniser call
    is the constant [{'gait': 12, 'default': 500}]; it does not depend on
    the frame rate, which the synchroniser only returns. *)
Theorem filter_table_is_constant env args fs :
  Forall sync_table (log_of (main env args fs)).
Proof.
  revert fs. change (traces (Forall sync_table) (main env args)).
  unfold main. traces_auto.
  all: first [apply synchronization_table | by_region].
Qed.

(** The claim C5 as the spec states it fails: at 60 frames per second the
    entry for every activity but gait is 500, not 30. *)
Lemma default_cutoff_is_not_half_the_frame_rate :
  ¬ (∀ env args fs sa s activity cutoff,
        In (EvSynchronizeVideos sa) (log_of (main env args fs)) →
        synchronizeVideos env sa = Ok s →
        In (activity, cutoff) (sa_filtFreqs sa) →
        activity ≠ "gait" →
        (inject_Z cutoff == frameRate s / 2)%Q).
Proof.
  intros H.
  set (run := main (demo_env "backWall" (60 # 1) 100)
                (demo_args false true None) demo_files).
  let l := eval vm_compute in (synchronize_calls (log_of run)) in
  lazymatch l with
  | ?sa :: _ =>
      assert (Hin : In (EvSynchronizeVideos sa) (log_of run)) by in_log;
      specialize (H _ _ _ sa (demo_sync (60 # 1)) "default" 500%Z Hin
                    eq_refl)
  end.
  cbn [sa_filtFreqs filtFreqs In] in H.
  assert (Hq : (inject_Z 500 == frameRate (demo_sync (60 # 1)) / 2)%Q)
    by (apply H; [by right; left | discriminate]).
  vm_compute in Hq. discriminate Hq.
Qed.

Example filtFreqs_entries :
  dict_get filtFreqs "gait" = Some 12%Z ∧
  dict_get filtFreqs "default" = Some 500%Z.
Proof. split; reflexivity. Qed.

(** C7, as the code has it.  The selector is called only under the guard
    [scaleModel and calibrationOptions is not None and alternateExtrinsics
    is None]; under that guard it is called as soon as the synchroniser
    has returned; and the triangulator is then given the camera
    parameters that the selector returned. *)
Theorem selector_runs_under_its_guard env args fs r fs' evs :
  main env args fs = (r, fs', evs) →
  (∀ sd k c o,
      In (EvAutoSelectExtrinsicSolution sd k c o) evs →
      scaleModel args = true ∧ calibrationOptions args = Some o ∧
      alternateExtrinsics args = None) ∧
  (∀ o sa s,
      scaleModel args = true → calibrationOptions args = Some o →
      alternateExtrinsics args = None →
      In (EvSynchronizeVideos sa) evs → synchronizeVideos env sa = Ok s →
      In (EvAutoSelectExtrinsicSolution (sessionDir env args)
            (keypoints2D s) (confidence s) o) evs) ∧
  (∀ sd k c o a,
      In (EvAutoSelectExtrinsicSolution sd k c o) evs →
      In (EvTriangulate a) evs →
      autoSelectExtrinsicSolution env sd k c o = Ok (ta_CamParamDict a)).
Proof.
  intros H. unfold main in H. inv_run H; stage_regions.
  all: split; [| split].
  all: try (intros xsd xk xc xo Hin; in_parts Hin;
            match goal with
            | Hs : selection _ _ _ _ _ = _,
              Hi : In (EvAutoSelectExtrinsicSolution _ _ _ _) _ |- _ =>
                destruct (selection_calls _ _ _ _ _ _ _ _ _ _ _ _ Hs Hi)
                  as (? & ? & ? & ? & ?)
            end; done).
  all: try (intros xo xsa xsy Hsc Hco Hal Hin Hsy; in_parts Hin;
            match goal with
            | Hs : synchronization _ _ _ _ _ _ = _,
              Hi : In (EvSynchronizeVideos _) _ |- _ =>
                destruct (synchronization_calls _ _ _ _ _ _ _ _ _ _ Hs Hi)
                  as (-> & Hr & _)
            end;
            rewrite Hsy in Hr; cbn in Hr; simplify_eq;
            match goal with
            | Hs : selection _ _ _ (Some _) _ = _ |- _ =>
                apply (selection_fires _ _ _ _ _ _ _ _ _ Hsc Hco Hal) in Hs
                  as ->
            end;
            rewrite ?in_app_iff; cbn [In]; tauto).
  all: intros xsd xk xc xo xa Hin Hin'; in_parts Hin; in_parts Hin'.
  all: match goal with
       | Hs : selection _ _ _ _ _ = _,
         Hi : In (EvAutoSelectExtrinsicSolution _ _ _ _) _ |- _ =>
           destruct (selection_calls _ _ _ _ _ _ _ _ _ _ _ _ Hs Hi)
             as (_ & _ & _ & _ & Hsel)
       end.
  all: match goal with
       | Ht : triangulation _ _ _ _ _ _ _ _ = _,
         Hi : In (EvTriangulate _) _ |- _ =>
           destruct (triangulation_calls _ _ _ _ _ _ _ _ _ _ _ _ Ht Hi)
             as (xsy & _ & _ & _ & Hc)
       end.
  all: congruence.
Qed.

Lemma selector_runs_under_its_guard_witness :
  In (EvAutoSelectExtrinsicSolution "/data/Data/s1" (Obj 10) (Obj 11) (Obj 30))
    (log_of (main (demo_env "backWall" (60 # 1) 100)
               (demo_args false true (Some (Obj 30))) demo_files)).
Proof.
  set (run := main _ _ _).
  let l := eval vm_compute in (synchronize_calls (log_of run)) in
  lazymatch l with
  | ?sa :: _ =>
      assert (Hin : In (EvSynchronizeVideos sa) (log_of run)) by in_log;
      exact (proj1 (proj2 (selector_runs_under_its_guard _ _ _ _ _ _
                             (run_eta run)))
               (Obj 30) sa (demo_sync (60 # 1)) eq_refl eq_refl eq_refl Hin
               eq_refl)
  end.
Defined.

(** The claim C7 as the spec states it fails: with calibration options
    declared, no override and [scaleModel=False], the whole pipeline runs
    and the selector is never called. *)
Lemma selector_not_called_without_scaleModel :
  ¬ (∀ env args fs,
        result_of (main env args fs) = Ok tt →
        calibrationOptions args ≠ None →
        alternateExtrinsics args = None →
        ∃ sd k c o,
          In (EvAutoSelectExtrinsicSolution sd k c o)
            (log_of (main env args fs))).
Proof.
  intros H.
  set (run := main (demo_env "backWall" (60 # 1) 100)
                (demo_args false false (Some (Obj 30))) demo_files_scaled).
  assert (Hok : result_of run = Ok tt) by (vm_compute; reflexivity).
  destruct (H _ _ _ Hok ltac:(discriminate) eq_refl) as (sd & k & c & o & Hin).
  pose proof (in_calls_in [RSelection] _ (log_of run) Hin eq_refl) as Hc.
  assert (E : calls_in [RSelection] (log_of run) = [])
    by (vm_compute; reflexivity).
  rewrite E in Hc. destruct Hc.
Qed.

(** ** Dictionaries *)

Section Dicts.
Context {V : Type}.
Implicit Types (d : Dict V) (k : string) (v : V).

Lemma dict_get_set_eq d k v : dict_get (dict_set d k v) k = Some v.
Proof.
  induction d as [| [k' v'] d IH]; simpl.
  - by rewrite String.eqb_refl.
  - destruct (String.eqb_spec k' k) as [-> | Hne]; simpl.
    + by rewrite String.eqb_refl.
    + apply String.eqb_neq in Hne. by rewrite Hne.
Qed.

Lemma dict_get_set_ne d k k' v :
  k ≠ k' → dict_get (dict_set d k v) k' = dict_get d k'.
Proof.
  intros Hne. induction d as [| [k0 v0] d IH]; simpl.
  - apply String.eqb_neq in Hne. by rewrite Hne.
  - destruct (String.eqb_spec k0 k) as [-> | Hk]; simpl.
    + apply String.eqb_neq in Hne. by rewrite Hne.
    + by rewrite IH.
Qed.

Lemma dict_set_keys d k v k' :
  In k' (map fst (dict_set d k v)) ↔ k' = k ∨ In k' (map fst d).
Proof.
  induction d as [| [k0 v0] d IH]; simpl.
  - intuition congruence.
  - destruct (String.eqb_spec k0 k) as [-> | Hk]; simpl.
    + intuition congruence.
    + rewrite IH. intuition congruence.
Qed.

Lemma dict_set_NoDup d k v :
  List.NoDup (map fst d) → List.NoDup (map fst (dict_set d k v)).
Proof.
  induction d as [| [k0 v0] d IH]; simpl; intros Hnd.
  - constructor; [intros [] | constructor].
  - inversion Hnd as [| ? ? Hnotin Hnd']; subst.
    destruct (String.eqb_spec k0 k) as [-> | Hk]; simpl.
    + by constructor.
    + constructor; [| by apply IH].
      rewrite dict_set_keys. intros [-> | Hin]; [done | by apply Hnotin].
Qed.

Lemma dict_get_In d k v : dict_get d k = Some v → In (k, v) d.
Proof.
  induction d as [| [k0 v0] d IH]; simpl; [done |].
  destruct (String.eqb_spec k0 k) as [-> | Hk].
  - intros [= ->]. by left.
  - intros H. right. by apply IH.
Qed.

Lemma In_dict_get d k v :
  List.NoDup (map fst d) → In (k, v) d → dict_get d k = Some v.
Proof.
  induction d as [| [k0 v0] d IH]; simpl; [done |].
  intros Hnd. inversion Hnd as [| ? ? Hnotin Hnd']; subst.
  intros [[= -> ->] | Hin].
  - by rewrite String.eqb_refl.
  - destruct (String.eqb_spec k0 k) as [-> | Hk]; [| by apply IH].
    exfalso. apply Hnotin. change k with (fst (k, v)). by apply in_map.
Qed.

End Dicts.

(** ** The camera loop *)


(** Solve [evs = pre ++ EvCalcExtrinsics cam a :: post] for a log [evs]
    that is written out. *)
Ltac split_log pre :=
  cbn [app] in *;
  repeat (destruct pre as [| ? pre]; cbn [app] in *; simplify_eq).

Section CameraLoop.
Context (env : Env) (args : Args).

Lemma computeExtrinsics_run md models cam dir fs r fs' evs :
  computeExtrinsics env args md models cam dir fs = (r, fs', evs) →
  fs' = fs ∧ Forall (tagged cam) evs ∧ rotated_before_solve env fs evs.
Proof.
  unfold computeExtrinsics. intros H. inv_run H.
  all: split; [done |]; split; [by repeat constructor |].
  all: intros pre xcam xa post E; split_log pre.
  all: eexists [], _, _; (split; [reflexivity |]); split; [eassumption |].
  all: cbn [ca_path ca_CamParams]; done.
Qed.

Lemma calibrateCamera_run md models cam dir acc fs r fs' evs :
  calibrateCamera env args md models (cam, dir) acc fs = (r, fs', evs) →
  fs' = fs ∧ Forall (tagged cam) evs ∧ rotated_before_solve env fs evs.
Proof.
  unfold calibrateCamera. destruct acc as [cpd loaded]. intros H. inv_run H.
  all: repeat match goal with
       | E : computeExtrinsics _ _ _ _ _ _ _ = _ |- _ =>
           apply computeExtrinsics_run in E as (-> & ? & ?)
       end.
  all: rewrite ?app_nil_r, ?app_nil_l.
  all: split; [done |]; split; [by repeat constructor |]; try done.
  all: intros pre xcam xa post E; split_log pre.
Qed.

Lemma calibrateCamera_cached md models cam dir cpd loaded c fs r fs' evs :
  fs !! path_join dir cacheFile = Some (FPickle c) →
  calibrateCamera env args md models (cam, dir) (cpd, loaded) fs
  = (r, fs', evs) →
  r = Ok (dict_set cpd cam c, dict_set loaded cam true) ∧
  evs = [EvLoadCameraParameters cam (path_join dir cacheFile)].
Proof.
  unfold calibrateCamera. intros Hc H. inv_run H.
  all: try match goal with
           | E : bool_decide (is_Some _) = false |- _ =>
               apply bool_decide_eq_false in E; destruct E; rewrite Hc; eauto
           end.
  all: try match goal with
           | E : ∀ c, _ ≠ Some (FPickle c) |- _ => by destruct (E c)
           end.
  all: by simplify_eq.
Qed.

End CameraLoop.

(** ** The calibration region *)

#[global] Instance rotated_before_solve_closed env fs :
  TraceClosed (rotated_before_solve env fs).
Proof.
  split.
  - intros pre cam a post E. by destruct pre.
  - intros l1 l2 H1 H2 pre cam a post E.
    apply app_eq_app in E as [l [[-> E] | [-> ->]]].
    + destruct l as [| ev l]; cbn [app] in E; simplify_eq.
      * destruct (H2 [] cam a post eq_refl) as (pre' & p & c0 & E & _).
        by destruct pre' as [| ? [| ? ?]].
      * by apply (H1 pre cam a l).
    + destruct (H2 l cam a post eq_refl) as (pre' & p & c0 & -> & ? & ?).
      exists (l1 ++ pre'), p, c0. by rewrite app_assoc.
Qed.


Section Calibration.
Context (env : Env) (args : Args).

Lemma collectCameras_loop md fs xs :
  ∀ dirs0 models0 r fs' evs,
    List.NoDup (map fst dirs0) →
    for_each xs
      (fun pathCam '(cameraDirectories, cameraModels) =>
         let camName := last_component pathCam in
         let cameraDirectories :=
           dict_set cameraDirectories camName
             (path_join3 (sessionDir env args) "Videos" pathCam) in
         model ← subscript (iphoneModel md) camName;
         ret (cameraDirectories, dict_set cameraModels camName model))
      (dirs0, models0) fs = (r, fs', evs) →
    fs' = fs ∧ evs = [] ∧
    ∀ dirs models, r = Ok (dirs, models) → List.NoDup (map fst dirs).
Proof.
  induction xs as [| x xs IH]; intros dirs0 models0 r fs' evs Hnd H;
    simpl in H.
  - inv_run H. repeat split; try done. by intros ? ? [= <- <-].
  - apply bind_inv in H
      as [(e & Hm & ->) | ([d m] & fs1 & ev1 & ev2 & Hm & H & ->)].
    + inv_run Hm. repeat split; done.
    + inv_run Hm. apply IH in H as (-> & -> & Hr); [done |].
      by apply dict_set_NoDup.
Qed.

Lemma collectCameras_run md fs r fs' evs :
  collectCameras env args md fs = (r, fs', evs) →
  fs' = fs ∧ evs = [] ∧
  ∀ dirs models, r = Ok (dirs, models) → List.NoDup (map fst dirs).
Proof. apply collectCameras_loop. constructor. Qed.


Lemma saveAll_cache_only cam p dirs cpd :
  traces (Forall (cache_only cam p)) (saveAll dirs cpd).
Proof. unfold saveAll. traces_auto. by repeat constructor. Qed.


Lemma calibrateCamera_result md models cam dir cpd loaded fs cpd' loaded'
    fs' evs :
  calibrateCamera env args md models (cam, dir) (cpd, loaded) fs
  = (Ok (cpd', loaded'), fs', evs) →
  ∃ v, cpd' = dict_set cpd cam v.
Proof. unfold calibrateCamera. intros H. inv_run H; eauto. Qed.

Lemma tagged_cache_only cam cam' p evs :
  cam' ≠ cam → Forall (tagged cam') evs → Forall (cache_only cam p) evs.
Proof.
  intros Hne H. eapply Forall_impl; [exact H |].
  intros []; cbn; intros; congruence.
Qed.

(** A camera whose cache entry exists goes through the loop with a single
    read of that entry, and ends up in [CamParamDict] with its content. *)
Lemma camera_loop_cached md models cam camDir c fs xs :
  fs !! path_join camDir cacheFile = Some (FPickle c) →
  (∀ dir, In (cam, dir) xs → dir = camDir) →
  ∀ acc r fs' evs,
    for_each xs (calibrateCamera env args md models) acc fs = (r, fs', evs) →
    Forall (cache_only cam (path_join camDir cacheFile)) evs ∧
    ∀ cpd loaded,
      r = Ok (cpd, loaded) →
      (∃ dir, In (cam, dir) xs) ∨ dict_get acc.1 cam = Some c →
      dict_get cpd cam = Some c.
Proof.
  intros Hc. induction xs as [| [cam' dir'] xs IH];
    intros Hdir [cpd0 loaded0] r fs' evs H; cbn [for_each] in H.
  - inv_run H. split; [constructor |].
    intros cpd loaded [= <- <-] [[dir []] | Hacc]. exact Hacc.
  - assert (Hfirst : ∀ r1 fs1 ev1,
               calibrateCamera env args md models (cam', dir')
                 (cpd0, loaded0) fs = (r1, fs1, ev1) →
               Forall (cache_only cam (path_join camDir cacheFile)) ev1 ∧
               (cam' = cam →
                r1 = Ok (dict_set cpd0 cam c, dict_set loaded0 cam true))).
    { intros r1 fs1 ev1 Hb. destruct (decide (cam' = cam)) as [-> | Hne].
      - rewrite (Hdir dir' (or_introl eq_refl)) in Hb.
        apply (calibrateCamera_cached _ _ _ _ _ _ _ _ c) in Hb as [-> ->];
          [| exact Hc].
        split; [| done]. by repeat constructor.
      - apply calibrateCamera_run in Hb as (_ & Ht & _).
        split; [by eapply tagged_cache_only | done]. }
    apply bind_inv in H
      as [(e & Hm & ->) | ([cpd1 loaded1] & fs1 & ev1 & ev2 & Hm & H & ->)].
    + destruct (Hfirst _ _ _ Hm) as [Hev _]. split; [exact Hev | done].
    + destruct (Hfirst _ _ _ Hm) as [Hev Hres].
      pose proof Hm as Hm'. apply calibrateCamera_run in Hm' as (-> & _ & _).
      apply IH in H as [Hev2 Hres2];
        [| intros dir Hin; apply Hdir; by right].
      split; [by apply Forall_app |].
      intros cpd loaded Hr Hor. apply (Hres2 _ _ Hr). cbn [fst].
      destruct (decide (cam' = cam)) as [-> | Hne].
      * right. specialize (Hres eq_refl). simplify_eq.
        apply dict_get_set_eq.
      * apply calibrateCamera_result in Hm as [v ->].
        destruct Hor as [[dir [Heq | Hin]] | Hacc].
        -- congruence.
        -- left. by exists dir.
        -- right. by rewrite dict_get_set_ne.
Qed.

End Calibration.




(** C6.  A camera whose cache entry [cameraIntrinsicsExtrinsics.pickle]
    exists when calibration starts is handled by reading that entry: no
    other load, no rotation of intrinsics and no extrinsics solve is
    logged for it, and [CamParamDict] holds the cached parameters. *)
Theorem cached_camera_is_not_recomputed env args md fs r fs' evs dirs models
    cam camDir c :
  calibration env args md fs = (r, fs', evs) →
  collectCameras env args md fs = (Ok (dirs, models), fs, []) →
  dict_get dirs cam = Some camDir →
  fs !! path_join camDir cacheFile = Some (FPickle c) →
  Forall (cache_only cam (path_join camDir cacheFile)) evs ∧
  (∀ dirs' cpd, r = Ok (dirs', cpd) → dict_get cpd cam = Some c).
Proof.
  intros H Hcc Hget Hc.
  destruct (collectCameras_run _ _ _ _ _ _ _ Hcc) as (_ & _ & Hnd).
  specialize (Hnd _ _ eq_refl).
  unfold calibration in H. rewrite (bind_ok _ _ _ _ _ _ Hcc) in H.
  cbv beta iota in H.
  match type of H with
  | match ?x with _ => _ end = _ =>
      destruct x as [[r2 fs2] ev2] eqn:E; simplify_eq
  end.
  rewrite app_nil_l. inv_run E.
  all: repeat match goal with
       | E : for_each _ (calibrateCamera _ _ _ _) _ _ = _ |- _ =>
           apply (camera_loop_cached _ _ _ _ cam camDir c) in E
             as [Hev Hres];
           [| exact Hc
            | intros dir Hin; apply (In_dict_get _ _ _ Hnd) in Hin;
              congruence ]
       | E : saveAll _ _ _ = _ |- _ =>
           apply (traces_run _ _ _ _ _ _
                    (saveAll_cache_only cam (path_join camDir cacheFile)
                       _ _)) in E
       end.
  all: split; [repeat apply Forall_app_2; by try constructor |].
  all: intros dirs' cpd Hr; simplify_eq.
  all: eapply Hres; [reflexivity |]; left; exists camDir;
       by apply dict_get_In.
Qed.


(** In the concrete session the solve for [Cam0] is the third calibration
    call, right after the load and the rotation of its intrinsics. *)
Example solve_follows_rotation :
  firstn 3
    (calls_in [RCalibration]
       (log_of (main (demo_env "backWall" (60 # 1) 100)
                  (demo_args false true None) demo_files))) =
  [EvLoadCameraParameters "Cam0"
     "/opencap/CameraIntrinsics/iPhone13,3/Deployed/cameraIntrinsics.pickle";
   EvRotateIntrinsics "Cam0" (Some (Obj 1))
     "/data/Data/s1/Videos/Cam0/InputMedia/walk/t42.mov";
   EvCalcExtrinsics "Cam0"
     {| ca_path := "/data/Data/s1/Videos/Cam0/InputMedia/walk/t42.mov";
        ca_CamParams := Some (Obj 101);
        ca_CheckerBoardParams :=
          {| dimensions := (4, 5)%Z; squareSize := 35 # 1 |};
        ca_visualize := false;
        ca_imageUpsampleFactor := 4;
        ca_useSecondExtrinsicsSolution := false |}].
Proof. vm_compute. reflexivity. Qed.

Lemma cached_camera_is_not_recomputed_witness :
  Forall
    (cache_only "Cam1" (path_join "/data/Data/s1/Videos/Cam1" cacheFile))
    (log_of (calibration (demo_env "backWall" (60 # 1) 100)
               (demo_args false true None) (demo_metadata "backWall")
               demo_files)) ∧
  (∀ dirs' cpd,
      result_of (calibration (demo_env "backWall" (60 # 1) 100)
                   (demo_args false true None) (demo_metadata "backWall")
                   demo_files) = Ok (dirs', cpd) →
      dict_get cpd "Cam1" = Some (Some (Obj 2))).
Proof.
  exact (cached_camera_is_not_recomputed
           (demo_env "backWall" (60 # 1) 100) (demo_args false true None)
           (demo_metadata "backWall") demo_files _ _ _
           [("Cam0", "/data/Data/s1/Videos/Cam0");
            ("Cam1", "/data/Data/s1/Videos/Cam1")]
           [("Cam0", "iPhone13,3"); ("Cam1", "iPhone12,1")]
           "Cam1" "/data/Data/s1/Videos/Cam1" (Some (Obj 2))
           (run_eta _)
           ltac:(vm_compute; reflexivity)
           ltac:(vm_compute; reflexivity)
           ltac:(vm_compute; reflexivity)).
Defined.

(** Calibrating again on the store that a first calibration has left
    reads both cameras from their cache entries and computes nothing. *)
Example second_calibration_only_loads :
  let env := demo_env "backWall" (60 # 1) 100 in
  let args := demo_args true false None in
  let md := demo_metadata "backWall" in
  let first := calibration env args md demo_files in
  let second := calibration env args md first.1.2 in
  log_of second =
    [EvLoadCameraParameters "Cam0"
       "/data/Data/s1/Videos/Cam0/cameraIntrinsicsExtrinsics.pickle";
     EvLoadCameraParameters "Cam1"
       "/data/Data/s1/Videos/Cam1/cameraIntrinsicsExtrinsics.pickle"] ∧
  result_of second = result_of first.
Proof. vm_compute. split; reflexivity. Qed.
